(** * Link checker for Markdown files: a shallow embedding of [main.py]

    The development follows the source file top to bottom:
    - Python values: [str] as a list of Unicode code points, [int] as [Z];
    - the exception classes the program can meet and their subclass relation;
    - a small state-and-exception monad [Py] for [print], [sys.exit],
      [try]/[except] and the calls to the outside world;
    - [extract_urls_from_file], [check_url_status], [print_result], [main];
    - the theorems about them. *)

From Stdlib Require Import ZArith NArith Lia Ascii String DecimalString.
From stdpp Require Import base list sorting.

Local Open Scope Z_scope.

(** ** Python strings *)

Module PyStr.

(** A Python 3 [str] is a sequence of code points. *)
Definition pystr := list N.

(** An ASCII literal of the source. *)
Definition lit (s : string) : pystr :=
  (fix go (s : string) : pystr :=
     match s with
     | EmptyString => []
     | String a s' => N_of_ascii a :: go s'
     end) s.

(** [str(n)] for an [int]. *)
Definition str_of_int (n : Z) : pystr :=
  lit (NilZero.string_of_int (Z.to_int n)).

(** [a < b] on [str]: lexicographic on code points, a proper prefix is
    smaller. *)
Fixpoint str_ltb (a b : pystr) : bool :=
  match a, b with
  | [], [] => false
  | [], _ :: _ => true
  | _ :: _, [] => false
  | x :: a', y :: b' =>
      if (x <? y)%N then true
      else if (y <? x)%N then false
      else str_ltb a' b'
  end.

Definition str_lt (a b : pystr) : Prop := str_ltb a b = true.

(** [s.startswith(p)] *)
Fixpoint startswith (p s : pystr) : bool :=
  match p, s with
  | [], _ => true
  | _ :: _, [] => false
  | x :: p', y :: s' => (x =? y)%N && startswith p' s'
  end.

(** [str.isspace] on one code point, which is what [\s] tests in a
    [str] pattern (Py_UNICODE_ISSPACE). *)
Definition is_space (c : N) : bool :=
  ((9 <=? c) && (c <=? 13) || (28 <=? c) && (c <=? 32)
   || (c =? 133) || (c =? 160) || (c =? 5760)
   || (8192 <=? c) && (c <=? 8202)
   || (c =? 8232) || (c =? 8233) || (c =? 8239) || (c =? 8287)
   || (c =? 12288))%N.

(** [sorted(l)] for a list of [str]: a stable sort that only asks [<],
    written as insertion from the left. *)
Fixpoint insert_sorted (x : pystr) (l : list pystr) : list pystr :=
  match l with
  | [] => [x]
  | y :: l' => if str_ltb x y then x :: y :: l' else y :: insert_sorted x l'
  end.

Definition sorted (l : list pystr) : list pystr :=
  foldl (fun acc x => insert_sorted x acc) [] l.

Global Instance pystr_eq_dec : EqDecision pystr := _.

End PyStr.
Import PyStr.

(** ** The regular expression [https?://[^\s)\]]+] *)

Module Re.

(** The character class [[^\s)\]]]. *)
Definition url_char (c : N) : bool :=
  negb (is_space c) && negb (c =? 41)%N && negb (c =? 93)%N.

(** Greedy [[^\s)\]]*]: the longest run of class characters. *)
Fixpoint take_url_chars (s : pystr) : pystr :=
  match s with
  | [] => []
  | c :: s' => if url_char c then c :: take_url_chars s' else []
  end.

(** The literal [://] followed by [[^\s)\]]+], anchored at the start of
    [s]; [scheme] is the text already matched. *)
Definition match_tail (scheme s : pystr) : option pystr :=
  if startswith (lit "://") s then
    match take_url_chars (drop 3 s) with
    | [] => None
    | body => Some (scheme ++ lit "://" ++ body)
    end
  else None.

(** The whole pattern anchored at the start of [s]: [s?] is greedy, so the
    branch that consumes the [s] is tried first and the other on failure. *)
Definition match_url (s : pystr) : option pystr :=
  if startswith (lit "http") s then
    let r := drop 4 s in
    match r with
    | c :: r' =>
        if (c =? 115)%N then
          match match_tail (lit "https") r' with
          | Some m => Some m
          | None => match_tail (lit "http") r
          end
        else match_tail (lit "http") r
    | [] => None
    end
  else None.

(** [url_pattern.findall(content)]: scan from the left; after a match the
    scan resumes at its end, [skip] counts the characters of the last match
    still to pass. *)
Fixpoint findall_from (skip : nat) (s : pystr) : list pystr :=
  match s with
  | [] => []
  | _ :: s' =>
      match skip with
      | S k => findall_from k s'
      | O =>
          match match_url s with
          | Some m => m :: findall_from (length m - 1) s'
          | None => findall_from 0 s'
          end
      end
  end.

Definition findall (content : pystr) : list pystr := findall_from 0 content.

End Re.
Import Re.

(** ** Exceptions *)

(** The classes the program names in an [except] clause and the ones the
    calls it makes are known to raise. All of them derive from [Exception];
    [SystemExit], which does not, is a constructor of [Exc] below. *)
Inductive ExcClass :=
  | Exception
  | ValueError | UnicodeError | UnicodeDecodeError
  | RuntimeError | LookupError | KeyError
  | OSError | FileNotFoundError | PermissionError | IsADirectoryError
  | urllib3_LocationParseError
  | requests_RequestException
  | requests_Timeout | requests_ConnectTimeout | requests_ReadTimeout
  | requests_ConnectionError | requests_SSLError
  | requests_InvalidURL | requests_TooManyRedirects.

Global Instance ExcClass_eq_dec : EqDecision ExcClass.
Proof. solve_decision. Defined.

(** Direct base classes, as in the class statements of Python and of the
    [requests] package ([RequestException] derives from [IOError], which is
    [OSError]). *)
Definition bases (c : ExcClass) : list ExcClass :=
  match c with
  | Exception => []
  | ValueError => [Exception]
  | UnicodeError => [ValueError]
  | UnicodeDecodeError => [UnicodeError]
  | RuntimeError => [Exception]
  | LookupError => [Exception]
  | KeyError => [LookupError]
  | OSError => [Exception]
  | FileNotFoundError => [OSError]
  | PermissionError => [OSError]
  | IsADirectoryError => [OSError]
  | urllib3_LocationParseError => [ValueError]
  | requests_RequestException => [OSError]
  | requests_Timeout => [requests_RequestException]
  | requests_ConnectTimeout => [requests_ConnectionError; requests_Timeout]
  | requests_ReadTimeout => [requests_Timeout]
  | requests_ConnectionError => [requests_RequestException]
  | requests_SSLError => [requests_ConnectionError]
  | requests_InvalidURL => [requests_RequestException; ValueError]
  | requests_TooManyRedirects => [requests_RequestException]
  end.

Fixpoint issubclass_upto (depth : nat) (c base : ExcClass) : bool :=
  bool_decide (c = base) ||
  match depth with
  | O => false
  | S d => existsb (fun p => issubclass_upto d p base) (bases c)
  end.

(** [issubclass(c, base)]; the hierarchy above is five levels deep. *)
Definition issubclass (c base : ExcClass) : bool := issubclass_upto 5 c base.

Inductive Exc :=
  | PyExc (cls : ExcClass) (msg : pystr)
  | SystemExit (code : Z).

Global Instance Exc_eq_dec : EqDecision Exc.
Proof. solve_decision. Defined.

Definition isinstance (e : Exc) (base : ExcClass) : bool :=
  match e with
  | PyExc c _ => issubclass c base
  | SystemExit _ => false
  end.

(** [str(e)] *)
Definition str_exc (e : Exc) : pystr :=
  match e with
  | PyExc _ msg => msg
  | SystemExit code => str_of_int code
  end.

(** ** The monad of Python statements *)

(** What the program does to the outside: the lines it printed, oldest
    first, and the addresses [requests.head] was called with, one entry
    for each call. What a call puts on the wire (nothing when the address
    is refused before connecting, several requests when redirects are
    followed) is inside the library and is not part of the record. *)
Record World := mkWorld {
  stdout : list pystr;
  requests_sent : list pystr
}.

Inductive Res (A : Type) :=
  | Ok (a : A)
  | Raise (e : Exc).
Arguments Ok {A} a.
Arguments Raise {A} e.

Global Instance Res_eq_dec {A} `{EqDecision A} : EqDecision (Res A).
Proof. solve_decision. Defined.

Definition Py (A : Type) : Type := World -> Res A * World.

Definition ret {A} (a : A) : Py A := fun w => (Ok a, w).

Definition bind {A B} (c : Py A) (k : A -> Py B) : Py B :=
  fun w =>
    match c w with
    | (Ok a, w') => k a w'
    | (Raise e, w') => (Raise e, w')
    end.

Definition raise {A} (e : Exc) : Py A := fun w => (Raise e, w).

Notation "x <- c ;; k" := (bind c (fun x => k))
  (at level 100, c at next level, right associativity).
Notation "c ;;; k" := (bind c (fun _ => k))
  (at level 100, right associativity).

(** [except C as e: h e], tried in the order written. *)
Fixpoint dispatch {A} (handlers : list (ExcClass * (Exc -> Py A))) (e : Exc)
  : Py A :=
  match handlers with
  | [] => raise e
  | (c, h) :: rest => if isinstance e c then h e else dispatch rest e
  end.

Definition try_except {A} (body : Py A)
    (handlers : list (ExcClass * (Exc -> Py A))) : Py A :=
  fun w =>
    match body w with
    | (Ok a, w') => (Ok a, w')
    | (Raise e, w') => dispatch handlers e w'
    end.

Definition print (line : pystr) : Py unit :=
  fun w => (Ok tt, mkWorld (stdout w ++ [line]) (requests_sent w)).

Definition sys_exit {A} (code : Z) : Py A := raise (SystemExit code).

Fixpoint mapM {A B} (f : A -> Py B) (l : list A) : Py (list B) :=
  match l with
  | [] => ret []
  | x :: l' => y <- f x ;; ys <- mapM f l' ;; ret (y :: ys)
  end.

(** A [for] loop that carries the variables it assigns. *)
Fixpoint for_each {A S} (l : list A) (body : A -> S -> Py S) (s : S) : Py S :=
  match l with
  | [] => ret s
  | x :: l' => s' <- body x s ;; for_each l' body s'
  end.

(** The exit status of the interpreter once [main()] is over. *)
Definition exit_status {A} (r : Res A) : Z :=
  match r with
  | Ok _ => 0
  | Raise (SystemExit code) => code
  | Raise (PyExc _ _) => 1
  end.

(** ** The outside world *)

(** What a call into a library does: it returns, or raises an exception of
    some class with some message. *)
Inductive Ext (A : Type) :=
  | Returns (a : A)
  | Fails (cls : ExcClass) (msg : pystr).
Arguments Returns {A} a.
Arguments Fails {A} cls msg.

(** The two attributes of a [requests.Response] the program reads. *)
Record Response := mkResponse {
  status_code : Z;
  reason : pystr
}.

(** The tuple [(url, status_code, status_text)]. *)
Definition Outcome : Type := pystr * Z * pystr.

(** A finished [concurrent.futures.Future]: the argument its task was
    submitted with and what [future.result()] gives. *)
Record Future := mkFuture {
  fut_url : pystr;
  fut_result : Res Outcome
}.

(** Futures are dict keys by identity; the addresses of a run are distinct,
    so the task's argument tells two futures apart. *)
Global Instance Future_eq_dec : EqDecision Future.
Proof. solve_decision. Defined.

Record Env := mkEnv {
  (** [open(filepath, 'r', encoding='utf-8')] and [f.read()] *)
  open_read : pystr -> Ext pystr;
  (** [requests.head(url, timeout=..., allow_redirects=True, ...)] *)
  requests_head : pystr -> Z -> Ext Response;
  (** the order in which a [set] hands out its elements *)
  set_iter : list pystr -> list pystr;
  (** the order in which [as_completed] yields the futures *)
  as_completed : list Future -> list Future
}.

(** Neither a [set] nor [as_completed] loses or invents an element. *)
Record EnvOk (env : Env) : Prop := mkEnvOk {
  set_iter_perm : forall l, set_iter env l ≡ₚ l;
  as_completed_perm : forall l, as_completed env l ≡ₚ l
}.

Definition call {A} (r : Ext A) : Py A :=
  match r with
  | Returns a => ret a
  | Fails cls msg => raise (PyExc cls msg)
  end.

(** ** The program *)

(** The ANSI colour codes of class [Colors]. *)
Module Colors.
Definition esc (code : string) : pystr := 27%N :: lit code.
Definition GREEN : pystr := esc "[92m".
Definition YELLOW : pystr := esc "[93m".
Definition RED : pystr := esc "[91m".
Definition BLUE : pystr := esc "[94m".
Definition RESET : pystr := esc "[0m".
End Colors.

(** The messages of the program; the letters outside ASCII are given by
    their code points. *)
Module Msg.
Import Colors.
Definition file_not_found (filepath : pystr) : pystr :=
  RED ++ lit "Erro: O arquivo '" ++ filepath ++ lit "' n" ++ [227%N]
      ++ lit "o foi encontrado." ++ RESET.
Definition read_error (e : Exc) : pystr :=
  RED ++ lit "Erro ao ler o arquivo: " ++ str_exc e ++ RESET.
Definition starting (filepath : pystr) : pystr :=
  BLUE ++ lit "--- Iniciando Verifica" ++ [231%N; 227%N]
       ++ lit "o de Links para '" ++ filepath ++ lit "' ---" ++ [10%N]
       ++ RESET.
Definition no_urls : pystr :=
  YELLOW ++ lit "Nenhum URL encontrado no arquivo." ++ RESET.
Definition found (n : nat) : pystr :=
  lit "Encontrados " ++ str_of_int (Z.of_nat n) ++ lit " URLs " ++ [250%N]
      ++ lit "nicos. Verificando..." ++ [10%N].
Definition unexpected (url : pystr) (e : Exc) : pystr :=
  RED ++ lit "[ERRO] Exce" ++ [231%N; 227%N] ++ lit "o inesperada ao verificar "
      ++ url ++ lit ": " ++ str_exc e ++ RESET.
Definition summary_title : pystr :=
  [10%N] ++ BLUE ++ lit "--- Resumo da Verifica" ++ [231%N; 227%N]
         ++ lit "o ---" ++ RESET.
Definition summary_total (n : nat) : pystr :=
  lit "Total de links verificados: " ++ str_of_int (Z.of_nat n).
Definition summary_good (n : Z) : pystr :=
  GREEN ++ lit "Links bons: " ++ str_of_int n ++ RESET.
Definition summary_bad (n : Z) : pystr :=
  YELLOW ++ lit "Links quebrados/redirecionados: " ++ str_of_int n ++ RESET.
Definition summary_error (n : Z) : pystr :=
  RED ++ lit "Erros de conex" ++ [227%N] ++ lit "o: " ++ str_of_int n ++ RESET.
Definition summary_rule : pystr :=
  BLUE ++ lit "-----------------------------" ++ RESET.
End Msg.

(** [lo <= x < hi] *)
Definition between (lo x hi : Z) : bool := (lo <=? x) && (x <? hi).

(** The dict [summary] with its three keys. *)
Record Summary := mkSummary {
  good : Z;
  bad : Z;
  error : Z
}.

Definition incr_good (s : Summary) := mkSummary (good s + 1) (bad s) (error s).
Definition incr_bad (s : Summary) := mkSummary (good s) (bad s + 1) (error s).
Definition incr_error (s : Summary) := mkSummary (good s) (bad s) (error s + 1).

(** The parsed command line: [args.filepath] and [args.workers], the
    latter already converted by [type=int]. *)
Record Args := mkArgs {
  filepath : pystr;
  workers : Z
}.

Section Program.
Variable env : Env.

(** [set(urls)] followed by [list(...)]: the distinct elements, in the
    order the set hands them out. *)
Definition list_of_set (urls : list pystr) : list pystr :=
  set_iter env (remove_dups urls).

Definition extract_urls_from_file (filepath : pystr) : Py (list pystr) :=
  try_except
    (content <- call (open_read env filepath) ;;
     let urls := findall content in
     ret (sorted (list_of_set urls)))
    [ (FileNotFoundError, fun _ =>
         print (Msg.file_not_found filepath) ;;; sys_exit 1);
      (Exception, fun e =>
         print (Msg.read_error e) ;;; sys_exit 1) ].

(** [requests.head(url, timeout=timeout, ...)]: the call is recorded,
    whatever it then returns or raises. *)
Definition head (url : pystr) (timeout : Z) : Py Response :=
  fun w =>
    call (requests_head env url timeout)
         (mkWorld (stdout w) (requests_sent w ++ [url])).

Definition check_url_status (url : pystr) (timeout : Z) : Py Outcome :=
  st <- try_except
    (response <- head url timeout ;;
     let status_code := status_code response in
     let status_text :=
       if between 200 status_code 300 then reason response
       else lit "Client/Server Error" in
     ret (status_code, status_text))
    [ (requests_Timeout, fun _ => ret (408, lit "Timeout"));
      (requests_RequestException, fun e =>
         ret (0, lit "Connection Error: " ++ take 50 (str_exc e) ++ lit "...")) ] ;;
  ret (url, st.1, st.2).

Definition print_result (url : pystr) (status_code : Z) (status_text : pystr)
  : Py unit :=
  let shown :=
    lit "[" ++ str_of_int status_code ++ lit " " ++ status_text ++ lit "]" in
  let status_colored :=
    if between 200 status_code 300 then Colors.GREEN ++ shown ++ Colors.RESET
    else if between 400 status_code 500 || (status_code =? 408)
    then Colors.YELLOW ++ shown ++ Colors.RESET
    else Colors.RED ++ shown ++ Colors.RESET in
  print (status_colored ++ lit " " ++ url).

(** [ThreadPoolExecutor(max_workers=n)]: the constructor of the standard
    library raises [ValueError] for [n <= 0]. *)
Definition ThreadPoolExecutor (max_workers : Z) : Py Z :=
  if max_workers <=? 0
  then raise (PyExc ValueError (lit "max_workers must be greater than 0"))
  else ret max_workers.

(** [executor.submit(check_url_status, url)]: the task runs with the
    default [timeout=10]; whatever it returns or raises is kept in the
    future, nothing is raised here. The pool size bounds how many tasks run
    at once and has no part in what each one computes; the tasks are run
    here one after the other, so [requests_sent] lists the addresses in the
    order of submission, and the order in which they finish is left to
    [as_completed]. *)
Definition submit (executor : Z) (url : pystr) : Py Future :=
  fun w =>
    let (r, w') := check_url_status url 10 w in
    (Ok (mkFuture url r), w').

(** [future.result()] *)
Definition result (future : Future) : Py Outcome :=
  fun w => (fut_result future, w).

(** The dict comprehension
    [{executor.submit(check_url_status, url): url for url in urls}]. *)
Definition submit_all (executor : Z) (urls : list pystr)
  : Py (list (Future * pystr)) :=
  mapM (fun url => f <- submit executor url ;; ret (f, url)) urls.

(** [future_to_url[future]] *)
Definition getitem (future_to_url : list (Future * pystr)) (future : Future)
  : Py pystr :=
  match find (fun kv => bool_decide (kv.1 = future)) future_to_url with
  | Some kv => ret kv.2
  | None => raise (PyExc KeyError (fut_url future))
  end.

(** The body of [for future in as_completed(future_to_url)]. *)
Definition consume (future_to_url : list (Future * pystr)) (future : Future)
    (summary : Summary) : Py Summary :=
  try_except
    (o <- result future ;;
     let '(url, status_code, status_text) := o in
     print_result url status_code status_text ;;;
     if between 200 status_code 300 then ret (incr_good summary)
     else if 0 <? status_code then ret (incr_bad summary)
     else ret (incr_error summary))
    [ (Exception, fun e =>
         url <- getitem future_to_url future ;;
         print (Msg.unexpected url e) ;;;
         ret (incr_error summary)) ].

(** [main()]; the value returned is the dict [summary] as it stands when
    the last line has been printed. *)
Definition main (args : Args) : Py Summary :=
  print (Msg.starting (filepath args)) ;;;
  urls <- extract_urls_from_file (filepath args) ;;
  (if bool_decide (urls = [])
   then print Msg.no_urls ;;; sys_exit 0
   else ret tt) ;;;
  print (Msg.found (length urls)) ;;;
  let summary := mkSummary 0 0 0 in
  executor <- ThreadPoolExecutor (workers args) ;;
  future_to_url <- submit_all executor urls ;;
  summary <- for_each (as_completed env (map fst future_to_url))
                      (consume future_to_url) summary ;;
  print Msg.summary_title ;;;
  print (Msg.summary_total (length urls)) ;;;
  print (Msg.summary_good (good summary)) ;;;
  print (Msg.summary_bad (bad summary)) ;;;
  print (Msg.summary_error (error summary)) ;;;
  print Msg.summary_rule ;;;
  ret summary.

End Program.

(** ** Predicates used in the statements *)

(** An address as the pattern can produce it: one of the two schemes in
    front, and no white space, [)] or [\]] anywhere. *)
Definition url_shape (u : pystr) : bool :=
  (startswith (lit "http://") u || startswith (lit "https://") u)
  && forallb url_char u.

Definition total (s : Summary) : Z := good s + bad s + error s.

(** The classification of an outcome and the bucket it counts in, in the
    words of the specification. *)
Inductive Classification :=
  | Success | ClientOrServerError | TimedOut | ConnectionFailed.

Inductive Bucket := Good | Bad | Error.

Definition spec_bucket (c : Classification) : Bucket :=
  match c with
  | Success => Good
  | ClientOrServerError | TimedOut => Bad
  | ConnectionFailed => Error
  end.

Definition increment (b : Bucket) (s : Summary) : Summary :=
  match b with
  | Good => incr_good s
  | Bad => incr_bad s
  | Error => incr_error s
  end.

(** What the specification calls the request's fate: a response with a
    code in [[200, 300)], any other response, no response within the
    timeout ([requests.Timeout]), or a transport failure (any other
    [requests.RequestException]). Other exceptions have no classification. *)
Definition spec_classify (r : Ext Response) : option Classification :=
  match r with
  | Returns resp =>
      Some (if between 200 (status_code resp) 300 then Success
            else ClientOrServerError)
  | Fails cls _ =>
      if issubclass cls requests_Timeout then Some TimedOut
      else if issubclass cls requests_RequestException then Some ConnectionFailed
      else None
  end.

(** A task that ran to its end left a tuple or an [Exception] in its
    future. *)
Definition settled (f : Future) : Prop :=
  match fut_result f with
  | Ok _ => True
  | Raise e => isinstance e Exception = true
  end.

Definition empty_world : World := mkWorld [] [].

(** The world once [requests.head] has been called with [url]. *)
Definition sent (url : pystr) (w : World) : World :=
  mkWorld (stdout w) (requests_sent w ++ [url]).

(** The bucket the loop picks for a status code. *)
Definition bucket_of_code (status_code : Z) : Bucket :=
  if between 200 status_code 300 then Good
  else if 0 <? status_code then Bad
  else Error.

(** The world with some more lines printed. *)
Definition printed (lines : list pystr) (w : World) : World :=
  mkWorld (stdout w ++ lines) (requests_sent w).

(** *** Sample environments *)

Definition no_file : pystr -> Ext pystr :=
  fun _ => Fails FileNotFoundError (lit "[Errno 2] No such file or directory").

Definition no_network : pystr -> Z -> Ext Response :=
  fun _ _ => Fails requests_ConnectionError (lit "Network is unreachable").

(** A document with three links, one of them twice; the hosts answer as in
    the scenario of the specification. *)
Definition sample_doc : pystr :=
  lit "[a](https://good.example) [b](http://missing.example) [c](https://slow.example) (https://good.example)".

Definition sample_head (url : pystr) (timeout : Z) : Ext Response :=
  if bool_decide (url = lit "https://good.example")
  then Returns (mkResponse 200 (lit "OK"))
  else if bool_decide (url = lit "http://missing.example")
  then Returns (mkResponse 404 (lit "Not Found"))
  else Fails requests_ReadTimeout (lit "Read timed out. (read timeout=10)").

Definition sample_env : Env :=
  mkEnv (fun _ => Returns sample_doc) sample_head reverse reverse.

(** The same document read under another hash seed and another schedule. *)
Definition sample_env' : Env :=
  mkEnv (fun _ => Returns sample_doc) sample_head id id.

(** A document without links. *)
Definition plain_env : Env :=
  mkEnv (fun _ => Returns (lit "# Title, no links here (ftp://x)"))
        no_network id id.

(** A file that is not there. *)
Definition missing_env : Env := mkEnv no_file no_network id id.

(** A host name with an empty label: [urllib3] raises
    [LocationParseError], which [requests] lets through. *)
Definition leaky_head (url : pystr) (timeout : Z) : Ext Response :=
  Fails urllib3_LocationParseError
        (lit "Failed to parse: 'a..b', label empty or too long").

Definition leaky_env : Env :=
  mkEnv (fun _ => Returns (lit "http://a..b")) leaky_head id id.

(** A port nobody listens on. *)
Definition refused_msg : pystr :=
  lit "HTTPConnectionPool(host='localhost', port=9): Max retries exceeded with url: /".

Definition refused_env : Env :=
  mkEnv (fun _ => Returns (lit "http://localhost:9/"))
        (fun _ _ => Fails requests_ConnectionError refused_msg) id id.

(** *** Predicates on texts *)

(** [u] is a piece of [s]. *)
Definition occurs_in (u s : pystr) : Prop :=
  exists pre post, s = pre ++ u ++ post.

(** What is left of the text after a match: nothing, or something that
    starts with a character outside the class of the pattern. *)
Definition delimited (post : pystr) : Prop :=
  match post with
  | [] => True
  | c :: _ => url_char c = false
  end.

(** What the task submitted for [url] leaves in its future. *)
Definition task_result (env : Env) (url : pystr) : Res Outcome :=
  (check_url_status env url 10 empty_world).1.

(** The dict [future_to_url] of a run over [urls]. *)
Definition futures_for (env : Env) (urls : list pystr)
  : list (Future * pystr) :=
  (fun url => (mkFuture url (task_result env url), url)) <$> urls.

(** [after] is [before] with one added to the counter of bucket [b] and
    the two other counters as they were. *)
Definition counted_in (b : Bucket) (before after : Summary) : Prop :=
  match b with
  | Good =>
      good after = good before + 1 /\ bad after = bad before /\
      error after = error before
  | Bad =>
      good after = good before /\ bad after = bad before + 1 /\
      error after = error before
  | Error =>
      good after = good before /\ bad after = bad before /\
      error after = error before + 1
  end.

(** ** The order on strings and [sorted] *)

Section StrOrder.

Lemma str_ltb_irrefl a : str_ltb a a = false.
Proof.
  induction a as [|x a IH]; simpl; [done|].
  by rewrite N.ltb_irrefl.
Qed.

Lemma str_ltb_trans a b c :
  str_ltb a b = true -> str_ltb b c = true -> str_ltb a c = true.
Proof.
  revert b c. induction a as [|x a IH]; intros [|y b] [|z c]; simpl; try done.
  destruct (N.ltb_spec x y), (N.ltb_spec y x), (N.ltb_spec y z),
    (N.ltb_spec z y), (N.ltb_spec x z), (N.ltb_spec z x);
    try done; try lia; eauto.
Qed.

Lemma str_ltb_asym a b : str_ltb a b = true -> str_ltb b a = false.
Proof.
  intros H. destruct (str_ltb b a) eqn:E; [|done].
  pose proof (str_ltb_trans _ _ _ H E) as Haa.
  by rewrite str_ltb_irrefl in Haa.
Qed.

Lemma str_ltb_trichotomy a b :
  str_ltb a b = false -> str_ltb b a = false -> a = b.
Proof.
  revert b. induction a as [|x a IH]; intros [|y b]; simpl; try done.
  destruct (N.ltb_spec x y), (N.ltb_spec y x); try done; try lia.
  intros Hab Hba. f_equal; [lia|eauto].
Qed.

Global Instance str_lt_trans : Transitive str_lt.
Proof. intros a b c. apply str_ltb_trans. Qed.

Global Instance str_lt_irrefl : Irreflexive str_lt.
Proof. intros a H. red in H. by rewrite str_ltb_irrefl in H. Qed.

Global Instance str_lt_antisym : AntiSymm (=) str_lt.
Proof. intros a b H1 H2. apply str_ltb_asym in H1. red in H2. congruence. Qed.

Lemma insert_sorted_perm x l : insert_sorted x l ≡ₚ x :: l.
Proof.
  induction l as [|y l IH]; simpl; [done|].
  destruct (str_ltb x y); [done|].
  rewrite IH. apply Permutation_swap.
Qed.

Lemma insert_sorted_strict x l :
  x ∉ l -> StronglySorted str_lt l -> StronglySorted str_lt (insert_sorted x l).
Proof.
  induction l as [|y l IH]; simpl; intros Hx Hl.
  - repeat constructor.
  - apply StronglySorted_cons in Hl as [Hy Hl].
    apply not_elem_of_cons in Hx as [Hxy Hx].
    destruct (str_ltb x y) eqn:E.
    + apply StronglySorted_cons. split.
      * constructor; [done|]. eapply Forall_impl; [exact Hy|].
        intros z Hz. by trans y.
      * by apply StronglySorted_cons.
    + apply StronglySorted_cons. split; [|auto].
      rewrite insert_sorted_perm. constructor; [|done].
      destruct (str_ltb y x) eqn:E'; [done|].
      destruct Hxy. by apply str_ltb_trichotomy.
Qed.

Lemma sorted_from_perm acc l :
  foldl (fun acc x => insert_sorted x acc) acc l ≡ₚ acc ++ l.
Proof.
  revert acc. induction l as [|x l IH]; intros acc; simpl.
  - by rewrite app_nil_r.
  - rewrite IH, insert_sorted_perm. simpl. apply Permutation_middle.
Qed.

Lemma sorted_perm l : sorted l ≡ₚ l.
Proof. unfold sorted. by rewrite sorted_from_perm. Qed.

Lemma sorted_from_strict acc l :
  NoDup (acc ++ l) -> StronglySorted str_lt acc ->
  StronglySorted str_lt (foldl (fun acc x => insert_sorted x acc) acc l).
Proof.
  revert acc. induction l as [|x l IH]; intros acc Hnd Hacc; simpl; [done|].
  apply IH.
  - rewrite insert_sorted_perm. simpl. by rewrite Permutation_middle.
  - apply insert_sorted_strict; [|done].
    rewrite <- Permutation_middle in Hnd. apply NoDup_cons in Hnd as [Hx _].
    intros Hin. apply Hx. apply elem_of_app. by left.
Qed.

Lemma sorted_strict l : NoDup l -> StronglySorted str_lt (sorted l).
Proof. intros H. apply sorted_from_strict; [done|constructor]. Qed.

(** On lists without repetition [sorted] forgets the order of its input. *)
Lemma sorted_of_perm l1 l2 :
  NoDup l1 -> l1 ≡ₚ l2 -> sorted l1 = sorted l2.
Proof.
  intros Hnd Hp. apply (StronglySorted_unique str_lt).
  - by apply sorted_strict.
  - apply sorted_strict. by rewrite <- Hp.
  - by rewrite !sorted_perm.
Qed.

End StrOrder.

(** ** The pattern *)

Section Pattern.

Lemma take_url_chars_ok s : forallb url_char (take_url_chars s) = true.
Proof.
  induction s as [|c s IH]; simpl; [done|].
  destruct (url_char c) eqn:E; simpl; [|done].
  by rewrite E, IH.
Qed.

Lemma match_tail_inv scheme s m :
  match_tail scheme s = Some m ->
  exists body, m = scheme ++ lit "://" ++ body /\ forallb url_char body = true.
Proof.
  unfold match_tail. destruct (startswith _ s); [|done].
  pose proof (take_url_chars_ok (drop 3 s)) as Hb.
  destruct (take_url_chars (drop 3 s)) as [|c body]; [done|].
  intros [= <-]. eauto.
Qed.

Lemma match_url_shape s m : match_url s = Some m -> url_shape m = true.
Proof.
  unfold match_url. destruct (startswith (lit "http") s); [|done].
  assert (Hs : forall t, match_tail (lit "https") t = Some m -> url_shape m = true).
  { intros t (body & -> & Hb)%match_tail_inv. unfold url_shape. cbn.
    by rewrite Hb. }
  assert (Hp : forall t, match_tail (lit "http") t = Some m -> url_shape m = true).
  { intros t (body & -> & Hb)%match_tail_inv. unfold url_shape. cbn.
    by rewrite Hb. }
  destruct (drop 4 s) as [|c r']; [done|].
  destruct (c =? 115)%N; [|by eauto].
  destruct (match_tail (lit "https") r') eqn:E; [|by eauto].
  intros [= <-]. eauto.
Qed.

Lemma findall_from_shape skip s :
  Forall (fun u => url_shape u = true) (findall_from skip s).
Proof.
  revert skip. induction s as [|c s IH]; intros skip; simpl; [constructor|].
  destruct skip; [|done].
  destruct (match_url (c :: s)) eqn:E; [|done].
  constructor; [|done]. by eapply match_url_shape.
Qed.

Lemma findall_shape content :
  Forall (fun u => url_shape u = true) (findall content).
Proof. apply findall_from_shape. Qed.

End Pattern.

(** ** Exceptions: facts about the hierarchy *)

Section Hierarchy.

Lemma all_are_Exception cls : issubclass cls Exception = true.
Proof. by destruct cls; vm_compute. Qed.

Lemma Timeout_is_RequestException cls :
  issubclass cls requests_Timeout = true ->
  issubclass cls requests_RequestException = true.
Proof. by destruct cls; vm_compute. Qed.

End Hierarchy.

(** ** Extraction *)

Section Extraction.
Variable env : Env.
Hypothesis env_ok : EnvOk env.

Lemma list_of_set_perm urls : list_of_set env urls ≡ₚ remove_dups urls.
Proof. apply (set_iter_perm env env_ok). Qed.

Lemma list_of_set_NoDup urls : NoDup (list_of_set env urls).
Proof. rewrite list_of_set_perm. apply NoDup_remove_dups. Qed.

Lemma extract_returns fp content w :
  open_read env fp = Returns content ->
  extract_urls_from_file env fp w
  = (Ok (sorted (list_of_set env (findall content))), w).
Proof.
  intros H. unfold extract_urls_from_file, try_except, bind. by rewrite H.
Qed.

Lemma extract_exits fp cls msg w :
  open_read env fp = Fails cls msg ->
  extract_urls_from_file env fp w
  = (Raise (SystemExit 1),
     mkWorld (stdout w ++ [if issubclass cls FileNotFoundError
                           then Msg.file_not_found fp
                           else Msg.read_error (PyExc cls msg)])
             (requests_sent w)).
Proof.
  intros H. unfold extract_urls_from_file, try_except, bind. rewrite H.
  cbn [call raise dispatch isinstance].
  destruct (issubclass cls FileNotFoundError); [done|].
  by rewrite all_are_Exception.
Qed.

End Extraction.

(** C9. Extraction is deterministic: two runs over the same document text,
    whatever order the [set] hands out its elements in either run, whatever
    the path and whatever was printed before, return the same list; that
    list has no address twice and holds exactly the addresses the pattern
    finds. *)
Theorem extraction_deterministic env1 env2 fp1 fp2 content w1 w2 :
  EnvOk env1 -> EnvOk env2 ->
  open_read env1 fp1 = Returns content ->
  open_read env2 fp2 = Returns content ->
  exists urls,
    extract_urls_from_file env1 fp1 w1 = (Ok urls, w1) /\
    extract_urls_from_file env2 fp2 w2 = (Ok urls, w2) /\
    NoDup urls /\
    (forall u, u ∈ urls <-> u ∈ findall content).
Proof.
  intros Hok1 Hok2 H1 H2.
  exists (sorted (list_of_set env1 (findall content))).
  rewrite (extract_returns env1 fp1 content w1 H1).
  rewrite (extract_returns env2 fp2 content w2 H2).
  split; [done|]. split.
  - do 2 f_equal. apply sorted_of_perm.
    + by apply list_of_set_NoDup.
    + by rewrite !list_of_set_perm.
  - split.
    + rewrite sorted_perm. by apply list_of_set_NoDup.
    + intros u. rewrite sorted_perm, list_of_set_perm by done.
      apply elem_of_remove_dups.
Qed.

Lemma sample_env_ok : EnvOk sample_env.
Proof. split; intros l; apply reverse_Permutation. Qed.

Lemma sample_env'_ok : EnvOk sample_env'.
Proof. by split. Qed.

Lemma extraction_deterministic_witness :
  exists urls,
    extract_urls_from_file sample_env (lit "README.md") empty_world
    = (Ok urls, empty_world) /\
    extract_urls_from_file sample_env' (lit "copy.md") empty_world
    = (Ok urls, empty_world) /\
    NoDup urls /\
    (forall u, u ∈ urls <-> u ∈ findall sample_doc).
Proof.
  apply (extraction_deterministic sample_env sample_env'
           (lit "README.md") (lit "copy.md") sample_doc);
    [apply sample_env_ok | apply sample_env'_ok | reflexivity | reflexivity].
Defined.

(** C10. For a readable document the list returned by extraction is in
    strictly ascending order of Python's string comparison, and each of its
    elements starts with [http://] or [https://] and holds no white space,
    no [)] and no [\]]. *)
Theorem extraction_sorted_and_shaped env fp content w :
  EnvOk env ->
  open_read env fp = Returns content ->
  exists urls,
    extract_urls_from_file env fp w = (Ok urls, w) /\
    StronglySorted str_lt urls /\
    Forall (fun u =>
      (startswith (lit "http://") u = true \/
       startswith (lit "https://") u = true) /\
      Forall (fun c => is_space c = false /\ c <> 41%N /\ c <> 93%N) u) urls.
Proof.
  intros Hok H.
  exists (sorted (list_of_set env (findall content))).
  split; [by apply extract_returns|]. split.
  - apply sorted_strict. by apply list_of_set_NoDup.
  - rewrite sorted_perm, list_of_set_perm by done.
    apply Forall_forall. intros u Hu. rewrite elem_of_remove_dups in Hu.
    pose proof (findall_shape content) as Hall.
    rewrite Forall_forall in Hall. specialize (Hall u Hu).
    unfold url_shape in Hall. apply andb_prop in Hall as [Hpre Hchars].
    split; [by apply orb_prop in Hpre|].
    apply Forall_forall. intros c Hc.
    rewrite forallb_forall in Hchars.
    apply list_elem_of_In, Hchars in Hc. unfold url_char in Hc.
    apply andb_prop in Hc as [[Hs H41]%andb_prop H93].
    apply negb_true_iff in Hs, H41, H93.
    by apply N.eqb_neq in H41, H93.
Qed.

Lemma extraction_sorted_and_shaped_witness :
  exists urls,
    extract_urls_from_file sample_env (lit "README.md") empty_world
    = (Ok urls, empty_world) /\
    StronglySorted str_lt urls /\
    Forall (fun u =>
      (startswith (lit "http://") u = true \/
       startswith (lit "https://") u = true) /\
      Forall (fun c => is_space c = false /\ c <> 41%N /\ c <> 93%N) u) urls.
Proof.
  apply (extraction_sorted_and_shaped sample_env (lit "README.md") sample_doc);
    [apply sample_env_ok | reflexivity].
Defined.

(** ** The prober *)

Section Prober.
Variable env : Env.

Lemma check_response url timeout w resp :
  requests_head env url timeout = Returns resp ->
  check_url_status env url timeout w
  = (Ok (url, status_code resp,
         if between 200 (status_code resp) 300 then reason resp
         else lit "Client/Server Error"), sent url w).
Proof.
  intros H. unfold check_url_status, try_except, bind, head. by rewrite H.
Qed.

Lemma check_timeout url timeout w cls msg :
  requests_head env url timeout = Fails cls msg ->
  issubclass cls requests_Timeout = true ->
  check_url_status env url timeout w
  = (Ok (url, 408, lit "Timeout"), sent url w).
Proof.
  intros H Ht. unfold check_url_status, try_except, bind, head. rewrite H.
  cbn [call raise dispatch isinstance]. by rewrite Ht.
Qed.

Lemma check_request_exception url timeout w cls msg :
  requests_head env url timeout = Fails cls msg ->
  issubclass cls requests_Timeout = false ->
  issubclass cls requests_RequestException = true ->
  check_url_status env url timeout w
  = (Ok (url, 0, lit "Connection Error: " ++ take 50 msg ++ lit "..."),
     sent url w).
Proof.
  intros H Ht Hr. unfold check_url_status, try_except, bind, head. rewrite H.
  cbn [call raise dispatch isinstance]. by rewrite Ht, Hr.
Qed.

Lemma check_other_exception url timeout w cls msg :
  requests_head env url timeout = Fails cls msg ->
  issubclass cls requests_RequestException = false ->
  check_url_status env url timeout w = (Raise (PyExc cls msg), sent url w).
Proof.
  intros H Hr. unfold check_url_status, try_except, bind, head. rewrite H.
  cbn [call raise dispatch isinstance]. rewrite Hr.
  destruct (issubclass cls requests_Timeout) eqn:Ht; [|done].
  apply Timeout_is_RequestException in Ht. congruence.
Qed.

(** Whatever happens, the task ends with a tuple or with an [Exception],
    and [requests.head] has been called once. *)
Lemma check_settles url timeout w :
  exists r, check_url_status env url timeout w = (r, sent url w) /\
            settled (mkFuture url r).
Proof.
  destruct (requests_head env url timeout) as [resp|cls msg] eqn:H.
  - eexists. split; [by apply check_response|done].
  - destruct (issubclass cls requests_RequestException) eqn:Hr.
    + destruct (issubclass cls requests_Timeout) eqn:Ht.
      * eexists. split; [by eapply check_timeout|done].
      * eexists. split; [by eapply check_request_exception|done].
    + eexists. split; [by eapply check_other_exception|].
      apply all_are_Exception.
Qed.

End Prober.

(** C2, as the code has it. For every address and positive timeout,
    [check_url_status] returns a tuple [(url, code, text)] when the request
    gets a response and when it raises [requests.Timeout] or any other
    [requests.RequestException]; an exception of any other class is not
    caught and reaches the caller. [requests.head] has been called once in
    either case. *)
Theorem check_url_status_returns_or_reraises env url timeout w :
  0 < timeout ->
  match requests_head env url timeout with
  | Returns _ =>
      exists code text,
        check_url_status env url timeout w = (Ok (url, code, text), sent url w)
  | Fails cls msg =>
      if issubclass cls requests_RequestException
      then exists code text,
        check_url_status env url timeout w = (Ok (url, code, text), sent url w)
      else check_url_status env url timeout w
           = (Raise (PyExc cls msg), sent url w)
  end.
Proof.
  intros _. destruct (requests_head env url timeout) as [resp|cls msg] eqn:H.
  - do 2 eexists. by apply check_response.
  - destruct (issubclass cls requests_RequestException) eqn:Hr.
    + destruct (issubclass cls requests_Timeout) eqn:Ht.
      * do 2 eexists. by eapply check_timeout.
      * do 2 eexists. by eapply check_request_exception.
    + by apply check_other_exception.
Qed.

Lemma check_url_status_returns_or_reraises_witness :
  0 < 10 /\
  exists code text,
    check_url_status sample_env (lit "http://missing.example") 10 empty_world
    = (Ok (lit "http://missing.example", code, text),
       sent (lit "http://missing.example") empty_world).
Proof.
  split; [lia|].
  apply (check_url_status_returns_or_reraises sample_env
           (lit "http://missing.example") 10 empty_world). lia.
Defined.

(** C2 as stated fails: with a positive timeout, a request that raises an
    exception outside the [requests] hierarchy makes [check_url_status]
    raise, it returns no tuple. *)
Lemma check_url_status_can_raise :
  0 < 10 /\
  ~ exists o w',
      check_url_status leaky_env (lit "http://a..b") 10 empty_world
      = (Ok o, w').
Proof.
  split; [lia|]. intros (o & w' & H). vm_compute in H. discriminate H.
Qed.

(** C7. When the request raises [requests.Timeout] (or a subclass: connect
    or read timeout), the tuple returned carries the code 408 and the text
    [Timeout], for every address and every timeout. *)
Theorem timeout_gives_408 env url timeout w cls msg :
  requests_head env url timeout = Fails cls msg ->
  issubclass cls requests_Timeout = true ->
  check_url_status env url timeout w
  = (Ok (url, 408, lit "Timeout"), sent url w).
Proof. apply check_timeout. Qed.

Lemma timeout_gives_408_witness :
  check_url_status sample_env (lit "https://slow.example") 10 empty_world
  = (Ok (lit "https://slow.example", 408, lit "Timeout"),
     sent (lit "https://slow.example") empty_world).
Proof.
  apply (timeout_gives_408 sample_env (lit "https://slow.example") 10
           empty_world requests_ReadTimeout
           (lit "Read timed out. (read timeout=10)"));
    reflexivity.
Defined.

(** C8, as the code has it. When the request raises a
    [requests.RequestException] that is not a timeout, the tuple returned
    carries the code 0 and the text made of [Connection Error: ], the first
    50 characters of the failure's description and three dots: 71
    characters at most. *)
Theorem transport_failure_gives_0 env url timeout w cls msg :
  requests_head env url timeout = Fails cls msg ->
  issubclass cls requests_Timeout = false ->
  issubclass cls requests_RequestException = true ->
  let text := lit "Connection Error: " ++ take 50 msg ++ lit "..." in
  check_url_status env url timeout w = (Ok (url, 0, text), sent url w) /\
  (length text <= 71)%nat.
Proof.
  intros H Ht Hr text. split; [by apply (check_request_exception _ _ _ _ cls)|].
  unfold text. rewrite !length_app, length_take.
  change (length (lit "Connection Error: ")) with 18%nat.
  change (length (lit "...")) with 3%nat. lia.
Qed.

Lemma transport_failure_gives_0_witness :
  let text := lit "Connection Error: " ++ take 50 refused_msg ++ lit "..." in
  check_url_status refused_env (lit "http://localhost:9/") 10 empty_world
  = (Ok (lit "http://localhost:9/", 0, text),
     sent (lit "http://localhost:9/") empty_world) /\
  (length text <= 71)%nat.
Proof.
  apply (transport_failure_gives_0 refused_env (lit "http://localhost:9/") 10
           empty_world requests_ConnectionError refused_msg);
    reflexivity.
Defined.

(** C8 as stated fails: for a refused connection the text returned is not
    the description cut at 50 characters; it is longer than 50 characters
    and begins with the fixed words [Connection Error: ]. *)
Lemma transport_failure_text_not_capped :
  exists text w',
    check_url_status refused_env (lit "http://localhost:9/") 10 empty_world
    = (Ok (lit "http://localhost:9/", 0, text), w') /\
    text <> take 50 refused_msg /\
    (50 < length text)%nat.
Proof.
  do 2 eexists. split; [vm_compute; reflexivity|].
  split; [discriminate|vm_compute; lia].
Qed.

(** ** Running a sequence of statements *)

Section Monad.
Context {A B : Type}.

Lemma bind_ok (c : Py A) (k : A -> Py B) w a w' :
  c w = (Ok a, w') -> bind c k w = k a w'.
Proof. intros H. unfold bind. by rewrite H. Qed.

Lemma bind_raise (c : Py A) (k : A -> Py B) w e w' :
  c w = (Raise e, w') -> bind c k w = (Raise e, w').
Proof. intros H. unfold bind. by rewrite H. Qed.

End Monad.

(** ** The loop over the completed futures *)

Section Loop.

Lemma total_increment b s : total (increment b s) = total s + 1.
Proof. destruct b; unfold total; simpl; lia. Qed.

Lemma increment_counted b s : counted_in b s (increment b s).
Proof. by destruct b. Qed.

Lemma getitem_member (d : list (Future * pystr)) f w :
  f ∈ d.*1 -> exists url, getitem d f w = (Ok url, w).
Proof.
  intros Hin. unfold getitem.
  destruct (find _ d) as [kv|] eqn:E; [by eexists|].
  apply list_elem_of_fmap in Hin as (kv & -> & Hkv).
  apply list_elem_of_In in Hkv.
  eapply find_none in E; [|exact Hkv]. simpl in E.
  by rewrite bool_decide_eq_false in E.
Qed.

Lemma consume_returned d url0 url status_code status_text s w :
  exists line,
    consume d (mkFuture url0 (Ok (url, status_code, status_text))) s w
    = (Ok (increment (bucket_of_code status_code) s), printed [line] w).
Proof.
  unfold consume, try_except, bind, result, bucket_of_code; simpl.
  destruct (between 200 status_code 300); [by eexists|].
  destruct (0 <? status_code); by eexists.
Qed.

Lemma consume_raised d url0 e s w :
  mkFuture url0 (Raise e) ∈ d.*1 ->
  isinstance e Exception = true ->
  exists line,
    consume d (mkFuture url0 (Raise e)) s w
    = (Ok (increment Error s), printed [line] w).
Proof.
  intros Hin He. unfold consume, try_except, bind, result; simpl.
  rewrite He.
  destruct (getitem_member d _ w Hin) as [url ->]. by eexists.
Qed.

Lemma consume_one d f s w :
  f ∈ d.*1 -> settled f ->
  exists b line, consume d f s w = (Ok (increment b s), printed [line] w).
Proof.
  intros Hin Hs. destruct f as [url0 [[[url c] t]|e]].
  - destruct (consume_returned d url0 url c t s w) as [line Hc]. eauto.
  - destruct (consume_raised d url0 e s w Hin Hs) as [line Hc]. eauto.
Qed.

Lemma for_each_consume d l s w :
  (forall f, f ∈ l -> f ∈ d.*1 /\ settled f) ->
  exists s' lines,
    for_each l (consume d) s w = (Ok s', printed lines w) /\
    total s' = total s + Z.of_nat (length l) /\
    length lines = length l.
Proof.
  revert s w. induction l as [|f l IH]; intros s w Hl; simpl.
  - exists s, []. unfold ret, printed. rewrite app_nil_r.
    destruct w; simpl. split; [done|]. split; [lia|done].
  - destruct (Hl f) as [Hin Hs]; [by left|].
    destruct (consume_one d f s w Hin Hs) as (b & line & Hc).
    destruct (IH (increment b s) (printed [line] w)) as (s' & lines & Hf & Ht & Hn).
    { intros g Hg. apply Hl. by right. }
    exists s', (line :: lines). unfold bind. rewrite Hc, Hf.
    unfold printed; simpl. rewrite <- app_assoc. split; [done|].
    rewrite Ht, total_increment. split; [lia|]. by rewrite Hn.
Qed.

End Loop.

Section Submission.
Variable env : Env.

Lemma submit_all_returns executor urls w :
  exists future_to_url,
    submit_all env executor urls w
    = (Ok future_to_url, mkWorld (stdout w) (requests_sent w ++ urls)) /\
    future_to_url.*2 = urls /\
    fut_url <$> future_to_url.*1 = urls /\
    Forall settled (future_to_url.*1).
Proof.
  revert w. induction urls as [|url urls IH]; intros w.
  - exists []. unfold submit_all; simpl. unfold ret. rewrite app_nil_r.
    by destruct w.
  - destruct (check_settles env url 10 w) as (r & Hr & Hs).
    destruct (IH (sent url w)) as (d & Hd & H2 & H1 & Hall).
    exists ((mkFuture url r, url) :: d).
    assert (Hsub : submit env executor url w
                   = (Ok (mkFuture url r), sent url w)).
    { unfold submit. by rewrite Hr. }
    unfold submit_all in *. cbn [mapM].
    erewrite bind_ok; [|erewrite bind_ok; [|exact Hsub]; reflexivity].
    erewrite bind_ok; [|exact Hd].
    unfold ret, sent. cbn [stdout requests_sent]. rewrite <- app_assoc.
    split; [done|]. rewrite !fmap_cons. cbn [fst snd fut_url].
    rewrite H2, H1. split; [done|]. split; [done|].
    by constructor.
Qed.

End Submission.

(** ** The whole program *)

Section Main.
Variable env : Env.
Hypothesis env_ok : EnvOk env.

Lemma print_prints line w : print line w = (Ok tt, printed [line] w).
Proof. done. Qed.

Lemma urls_nonempty content :
  findall content <> [] -> sorted (list_of_set env (findall content)) <> [].
Proof.
  intros Hne Hnil. destruct (findall content) as [|u l] eqn:E; [done|].
  assert (Hu : u ∈ sorted (list_of_set env (u :: l))).
  { rewrite sorted_perm, list_of_set_perm by done.
    apply elem_of_remove_dups. by left. }
  rewrite Hnil in Hu. by apply elem_of_nil in Hu.
Qed.

Lemma urls_empty content :
  findall content = [] -> sorted (list_of_set env (findall content)) = [].
Proof.
  intros ->. apply Permutation_nil_r.
  rewrite sorted_perm, list_of_set_perm by done. done.
Qed.

Lemma main_unreadable args cls msg w :
  open_read env (filepath args) = Fails cls msg ->
  main env args w
  = (Raise (SystemExit 1),
     printed [Msg.starting (filepath args);
              if issubclass cls FileNotFoundError
              then Msg.file_not_found (filepath args)
              else Msg.read_error (PyExc cls msg)] w).
Proof.
  intros H. unfold main.
  erewrite bind_ok; [|apply print_prints].
  erewrite bind_raise; [|by apply extract_exits].
  unfold printed; simpl. by rewrite <- app_assoc.
Qed.

Lemma main_no_urls args content w :
  open_read env (filepath args) = Returns content ->
  findall content = [] ->
  main env args w
  = (Raise (SystemExit 0),
     printed [Msg.starting (filepath args); Msg.no_urls] w).
Proof.
  intros H Hnil. unfold main.
  erewrite bind_ok; [|apply print_prints].
  erewrite bind_ok; [|by apply extract_returns].
  rewrite (urls_empty content Hnil). rewrite bool_decide_eq_true_2 by done.
  erewrite bind_raise; [done|].
  erewrite bind_ok; [|apply print_prints].
  unfold sys_exit, raise, printed; simpl. by rewrite <- app_assoc.
Qed.

Lemma main_bad_workers args content w :
  open_read env (filepath args) = Returns content ->
  findall content <> [] ->
  workers args <= 0 ->
  main env args w
  = (Raise (PyExc ValueError (lit "max_workers must be greater than 0")),
     printed [Msg.starting (filepath args);
              Msg.found (length (sorted (list_of_set env (findall content))))]
             w).
Proof.
  intros H Hne Hw. unfold main.
  erewrite bind_ok; [|apply print_prints].
  erewrite bind_ok; [|by apply extract_returns].
  rewrite bool_decide_eq_false_2 by by apply urls_nonempty.
  erewrite bind_ok; [|reflexivity].
  erewrite bind_ok; [|apply print_prints].
  erewrite bind_raise; [done|].
  unfold ThreadPoolExecutor. destruct (Z.leb_spec (workers args) 0); [|lia].
  unfold raise, printed; simpl. by rewrite <- app_assoc.
Qed.

Lemma completed_are_known (d : list (Future * pystr)) l :
  l ≡ₚ d.*1 -> Forall settled (d.*1) ->
  forall f, f ∈ l -> f ∈ d.*1 /\ settled f.
Proof.
  intros Hp Hall f Hf. rewrite Hp in Hf. split; [done|].
  rewrite Forall_forall in Hall. by apply Hall.
Qed.

Lemma main_runs args content w :
  open_read env (filepath args) = Returns content ->
  findall content <> [] ->
  0 < workers args ->
  let urls := sorted (list_of_set env (findall content)) in
  exists s lines,
    main env args w
    = (Ok s,
       mkWorld (stdout w
                ++ [Msg.starting (filepath args); Msg.found (length urls)]
                ++ lines
                ++ [Msg.summary_title; Msg.summary_total (length urls);
                    Msg.summary_good (good s); Msg.summary_bad (bad s);
                    Msg.summary_error (error s); Msg.summary_rule])
               (requests_sent w ++ urls)) /\
    total s = Z.of_nat (length urls) /\
    length lines = length urls.
Proof.
  intros H Hne Hw urls.
  set (w1 := printed [Msg.starting (filepath args); Msg.found (length urls)] w).
  destruct (submit_all_returns env (workers args) urls w1)
    as (d & Hd & H2 & H1 & Hall).
  set (w2 := mkWorld (stdout w1) (requests_sent w1 ++ urls)) in Hd.
  destruct (for_each_consume d (as_completed env (d.*1)) (mkSummary 0 0 0) w2)
    as (s & lines & Hf & Ht & Hn).
  { apply completed_are_known; [|done]. apply (as_completed_perm env env_ok). }
  exists s, lines. split; [|split].
  - unfold main.
    erewrite bind_ok; [|apply print_prints].
    erewrite bind_ok; [|by apply extract_returns].
    rewrite bool_decide_eq_false_2 by by apply urls_nonempty.
    erewrite bind_ok; [|reflexivity].
    erewrite bind_ok; [|apply print_prints].
    erewrite bind_ok.
    2:{ unfold ThreadPoolExecutor.
        destruct (Z.leb_spec (workers args) 0); [lia|reflexivity]. }
    erewrite bind_ok.
    2:{ fold urls. replace (printed _ (printed _ w)) with w1; [exact Hd|].
        unfold w1, printed; simpl. by rewrite <- app_assoc. }
    erewrite bind_ok; [|exact Hf].
    repeat (erewrite bind_ok; [|apply print_prints]).
    unfold ret, printed, w2, w1; simpl. fold urls.
    by rewrite <- !app_assoc.
  - rewrite Ht. unfold total; simpl.
    rewrite (Permutation_length (as_completed_perm env env_ok _)).
    rewrite length_fmap, <- (length_fmap snd d), H2. lia.
  - rewrite Hn, (Permutation_length (as_completed_perm env env_ok _)).
    by rewrite length_fmap, <- (length_fmap snd d), H2.
Qed.

End Main.



(** C3. Every tuple the loop consumes adds one to exactly one counter of
    [summary] and leaves the two others as they were; the counter is chosen
    by the code: a code in [[200, 300)] adds to [good], any other positive
    code to [bad], a code of zero or less to [error]. Through the prober
    this is the mapping of the specification: a response with a code in
    [[200, 300)] adds to [good], a timeout (code 408) and any other
    response (HTTP status codes are positive) to [bad], a transport failure
    (code 0) to [error]. *)
Theorem bucket_follows_classification env url timeout w c :
  spec_classify (requests_head env url timeout) = Some c ->
  (forall resp, requests_head env url timeout = Returns resp ->
                0 < status_code resp) ->
  (exists code text,
     check_url_status env url timeout w = (Ok (url, code, text), sent url w) /\
     match c with
     | Success => 200 <= code < 300
     | ClientOrServerError => 0 < code /\ ~ (200 <= code < 300)
     | TimedOut => code = 408
     | ConnectionFailed => code = 0
     end /\
     forall d url0 s w0, exists line s',
       consume d (mkFuture url0 (Ok (url, code, text))) s w0
       = (Ok s', printed [line] w0) /\
       match c with
       | Success =>
           good s' = good s + 1 /\ bad s' = bad s /\ error s' = error s
       | ClientOrServerError | TimedOut =>
           good s' = good s /\ bad s' = bad s + 1 /\ error s' = error s
       | ConnectionFailed =>
           good s' = good s /\ bad s' = bad s /\ error s' = error s + 1
       end) /\
  (forall d url0 u code text s w0, exists line s',
     consume d (mkFuture url0 (Ok (u, code, text))) s w0
     = (Ok s', printed [line] w0) /\
     (200 <= code < 300 ->
      good s' = good s + 1 /\ bad s' = bad s /\ error s' = error s) /\
     (0 < code /\ ~ (200 <= code < 300) ->
      good s' = good s /\ bad s' = bad s + 1 /\ error s' = error s) /\
     (code <= 0 ->
      good s' = good s /\ bad s' = bad s /\ error s' = error s + 1)).
Proof.
  intros Hc Hpos.
  assert (Hcode : forall d url0 u code text s w0 b,
            bucket_of_code code = b ->
            exists line s',
              consume d (mkFuture url0 (Ok (u, code, text))) s w0
              = (Ok s', printed [line] w0) /\ counted_in b s s').
  { intros d url0 u code text s w0 b <-.
    destruct (consume_returned d url0 u code text s w0) as [line Hl].
    exists line, (increment (bucket_of_code code) s).
    split; [exact Hl|apply increment_counted]. }
  split.
  - destruct (requests_head env url timeout) as [resp|cls msg] eqn:H;
      simpl in Hc.
    + specialize (Hpos resp eq_refl).
      exists (status_code resp). eexists.
      split; [by apply check_response|].
      assert (Hb : bucket_of_code (status_code resp) = spec_bucket c).
      { unfold bucket_of_code.
        destruct (between 200 (status_code resp) 300);
          injection Hc as <-; [done|].
        by destruct (Z.ltb_spec 0 (status_code resp)); [|lia]. }
      split.
      * unfold between in Hc.
        destruct (Z.leb_spec 200 (status_code resp)),
          (Z.ltb_spec (status_code resp) 300);
          injection Hc as <-; lia.
      * intros d url0 s w0.
        edestruct (Hcode d url0 url (status_code resp)) as (line & s' & Hl & Hs);
          [exact Hb|].
        exists line, s'. split; [exact Hl|]. by destruct c.
    + destruct (issubclass cls requests_Timeout) eqn:Ht.
      * injection Hc as <-. exists 408. eexists.
        split; [by eapply check_timeout|]. split; [done|].
        intros d url0 s w0. by apply (Hcode d url0 url 408 _ s w0 Bad).
      * destruct (issubclass cls requests_RequestException) eqn:Hr; [|done].
        injection Hc as <-. exists 0. eexists.
        split; [by eapply check_request_exception|]. split; [done|].
        intros d url0 s w0. by apply (Hcode d url0 url 0 _ s w0 Error).
  - intros d url0 u code text s w0.
    destruct (Hcode d url0 u code text s w0 _ eq_refl) as (line & s' & Hl & Hs).
    exists line, s'. split; [exact Hl|].
    unfold bucket_of_code, between in Hs.
    destruct (Z.leb_spec 200 code), (Z.ltb_spec code 300),
      (Z.ltb_spec 0 code); cbn [andb] in Hs;
      (split; [|split]); intros; try lia; exact Hs.
Qed.

Lemma bucket_follows_classification_witness :
  (exists code text,
     check_url_status sample_env (lit "http://missing.example") 10 empty_world
     = (Ok (lit "http://missing.example", code, text),
        sent (lit "http://missing.example") empty_world) /\
     (0 < code /\ ~ (200 <= code < 300)) /\
     forall d url0 s w0, exists line s',
       consume d (mkFuture url0 (Ok (lit "http://missing.example", code, text)))
               s w0
       = (Ok s', printed [line] w0) /\
       (good s' = good s /\ bad s' = bad s + 1 /\ error s' = error s)) /\
  (forall d url0 u code text s w0, exists line s',
     consume d (mkFuture url0 (Ok (u, code, text))) s w0
     = (Ok s', printed [line] w0) /\
     (200 <= code < 300 ->
      good s' = good s + 1 /\ bad s' = bad s /\ error s' = error s) /\
     (0 < code /\ ~ (200 <= code < 300) ->
      good s' = good s /\ bad s' = bad s + 1 /\ error s' = error s) /\
     (code <= 0 ->
      good s' = good s /\ bad s' = bad s /\ error s' = error s + 1)).
Proof.
  apply (bucket_follows_classification sample_env
           (lit "http://missing.example") 10 empty_world ClientOrServerError).
  - reflexivity.
  - intros resp [= <-]. reflexivity.
Defined.

(** C4, as the code has it. [main] hands [args.workers] to the pool as it
    is. With a document that holds an address, a value of zero or less
    makes the constructor of the pool raise [ValueError], which nothing
    catches: the run ends with a non-zero status after its first two lines
    and [requests.head] was never called. With a document that cannot be
    read or holds no address, the run is the same for every value, positive
    or not. *)
Theorem workers_checked_by_pool_only env fp n w :
  EnvOk env ->
  n <= 0 ->
  match open_read env fp with
  | Returns content =>
      if bool_decide (findall content = [])
      then forall m, main env (mkArgs fp n) w = main env (mkArgs fp m) w
      else exists e w',
        main env (mkArgs fp n) w = (Raise (PyExc ValueError e), w') /\
        exit_status (main env (mkArgs fp n) w).1 <> 0 /\
        requests_sent w' = requests_sent w /\
        length (stdout w') = (length (stdout w) + 2)%nat
  | Fails _ _ => forall m, main env (mkArgs fp n) w = main env (mkArgs fp m) w
  end.
Proof.
  intros Hok Hn. destruct (open_read env fp) as [content|cls msg] eqn:H.
  - case_bool_decide as Hf.
    + intros m. by rewrite !(main_no_urls env Hok _ content w).
    + do 2 eexists.
      rewrite (main_bad_workers env Hok (mkArgs fp n) content w) by done.
      split; [done|]. split; [done|]. split; [done|].
      unfold printed; simpl. rewrite length_app. done.
  - intros m. by rewrite !(main_unreadable env _ cls msg w).
Qed.

Lemma workers_checked_by_pool_only_witness :
  exists e w',
    main sample_env (mkArgs (lit "README.md") 0) empty_world
    = (Raise (PyExc ValueError e), w') /\
    exit_status (main sample_env (mkArgs (lit "README.md") 0) empty_world).1
    <> 0 /\
    requests_sent w' = requests_sent empty_world /\
    length (stdout w') = (length (stdout empty_world) + 2)%nat.
Proof.
  apply (workers_checked_by_pool_only sample_env (lit "README.md") 0
           empty_world); [apply sample_env_ok | lia].
Defined.

(** C4 as stated fails: with zero workers and a document without links the
    run is not rejected; it ends with status 0, exactly as with ten
    workers. *)
Lemma zero_workers_accepted :
  exit_status (main plain_env (mkArgs (lit "notes.md") 0) empty_world).1 = 0 /\
  main plain_env (mkArgs (lit "notes.md") 0) empty_world
  = main plain_env (mkArgs (lit "notes.md") 10) empty_world /\
  stdout (main plain_env (mkArgs (lit "notes.md") 0) empty_world).2
  = [Msg.starting (lit "notes.md"); Msg.no_urls].
Proof. vm_compute. repeat split. Qed.

(** C5. If the document cannot be read, because the file is missing or
    for any other failure of opening, reading or decoding it, the run ends
    with exit status 1 after printing the opening line and one error
    message; [requests.head] is never called, so no request leaves, and no
    result line is printed. *)
Theorem unreadable_document_exits_1 env args cls msg w :
  open_read env (filepath args) = Fails cls msg ->
  exists message,
    main env args w
    = (Raise (SystemExit 1),
       mkWorld (stdout w ++ [Msg.starting (filepath args); message])
               (requests_sent w)) /\
    exit_status (main env args w).1 = 1 /\
    message = (if issubclass cls FileNotFoundError
               then Msg.file_not_found (filepath args)
               else Msg.read_error (PyExc cls msg)).
Proof.
  intros H. eexists. rewrite (main_unreadable env args cls msg w H).
  split; [reflexivity|]. split; reflexivity.
Qed.

Lemma unreadable_document_exits_1_witness :
  exists message,
    main missing_env (mkArgs (lit "nowhere.md") 10) empty_world
    = (Raise (SystemExit 1),
       mkWorld (stdout empty_world
                ++ [Msg.starting (lit "nowhere.md"); message])
               (requests_sent empty_world)) /\
    exit_status (main missing_env (mkArgs (lit "nowhere.md") 10) empty_world).1
    = 1 /\
    message = (if issubclass FileNotFoundError FileNotFoundError
               then Msg.file_not_found (lit "nowhere.md")
               else Msg.read_error
                      (PyExc FileNotFoundError
                             (lit "[Errno 2] No such file or directory"))).
Proof.
  apply (unreadable_document_exits_1 missing_env
           (mkArgs (lit "nowhere.md") 10) FileNotFoundError
           (lit "[Errno 2] No such file or directory") empty_world).
  reflexivity.
Defined.

(** C6. If the document is readable and the pattern finds no address in
    it, the run prints that no URL was found and ends with exit status 0;
    [requests.head] is never called, so no request leaves, and no result
    line is printed. *)
Theorem no_urls_exits_0 env args content w :
  EnvOk env ->
  open_read env (filepath args) = Returns content ->
  findall content = [] ->
  main env args w
  = (Raise (SystemExit 0),
     mkWorld (stdout w ++ [Msg.starting (filepath args); Msg.no_urls])
             (requests_sent w)) /\
  exit_status (main env args w).1 = 0.
Proof.
  intros Hok H Hnil. rewrite (main_no_urls env Hok args content w H Hnil).
  split; reflexivity.
Qed.

Lemma plain_env_ok : EnvOk plain_env.
Proof. by split. Qed.

Lemma no_urls_exits_0_witness :
  main plain_env (mkArgs (lit "notes.md") 4) empty_world
  = (Raise (SystemExit 0),
     mkWorld (stdout empty_world ++ [Msg.starting (lit "notes.md"); Msg.no_urls])
             (requests_sent empty_world)) /\
  exit_status (main plain_env (mkArgs (lit "notes.md") 4) empty_world).1 = 0.
Proof.
  apply (no_urls_exits_0 plain_env (mkArgs (lit "notes.md") 4)
           (lit "# Title, no links here (ftp://x)") empty_world);
    [apply plain_env_ok | reflexivity | reflexivity].
Defined.

(** ** Runs of the program on the sample documents *)

Example findall_markdown :
  findall (lit "see [a](https://good.example) and http://missing.example/x y https://  httpx://q http://] https:/x")
  = [lit "https://good.example"; lit "http://missing.example/x"].
Proof. vm_compute. reflexivity. Qed.

Example sorted_by_code_point :
  sorted [lit "https://b"; lit "http://z"; lit "https://a"; lit "http://"]
  = [lit "http://"; lit "http://z"; lit "https://a"; lit "https://b"].
Proof. vm_compute. reflexivity. Qed.

Example str_of_int_digits :
  str_of_int 404 = lit "404" /\ str_of_int 0 = lit "0".
Proof. vm_compute. split; reflexivity. Qed.

Example issubclass_table :
  issubclass requests_ConnectTimeout requests_Timeout = true /\
  issubclass requests_SSLError requests_RequestException = true /\
  issubclass requests_SSLError requests_Timeout = false /\
  issubclass urllib3_LocationParseError requests_RequestException = false /\
  issubclass FileNotFoundError OSError = true.
Proof. vm_compute. repeat split. Qed.

(** The scenario of the specification: one good link, one missing, one
    that times out. *)
Example sample_run :
  (main sample_env (mkArgs (lit "README.md") 10) empty_world).1
  = Ok (mkSummary 1 2 0) /\
  requests_sent (main sample_env (mkArgs (lit "README.md") 10) empty_world).2
  = [lit "http://missing.example"; lit "https://good.example";
     lit "https://slow.example"].
Proof. vm_compute. split; reflexivity. Qed.

(** A task that raises is counted in [error] and the run goes on. *)
Example leaky_run :
  (main leaky_env (mkArgs (lit "README.md") 10) empty_world).1
  = Ok (mkSummary 0 0 1).
Proof. vm_compute. reflexivity. Qed.

(** ** More on the pattern: where the matches lie in the text *)

Section Matches.

Lemma startswith_split p s :
  startswith p s = true -> s = p ++ drop (length p) s.
Proof.
  revert s. induction p as [|x p IH]; intros [|y s]; simpl; try done.
  intros [Hxy Hp]%andb_prop. apply N.eqb_eq in Hxy as ->.
  f_equal. by apply IH.
Qed.

Lemma take_url_chars_split s :
  exists rest, s = take_url_chars s ++ rest /\ delimited rest.
Proof.
  induction s as [|c s (rest & IH & Hd)]; simpl.
  - by exists [].
  - destruct (url_char c) eqn:E.
    + exists rest. simpl. by rewrite <- IH.
    + by exists (c :: s).
Qed.

Lemma match_tail_split scheme s m :
  match_tail scheme s = Some m ->
  exists body rest,
    m = scheme ++ lit "://" ++ body /\ body <> [] /\
    s = lit "://" ++ body ++ rest /\ delimited rest.
Proof.
  unfold match_tail. destruct (startswith (lit "://") s) eqn:Hs; [|done].
  apply startswith_split in Hs.
  destruct (take_url_chars_split (drop 3 s)) as (rest & Hb & Hd).
  change (length (lit "://")) with 3%nat in Hs.
  destruct (take_url_chars (drop 3 s)) as [|c body] eqn:E; [done|].
  intros [= <-]. exists (c :: body), rest.
  split; [done|]. split; [done|]. split; [|done].
  rewrite Hs at 1. by rewrite Hb.
Qed.

Lemma match_url_split s m :
  match_url s = Some m ->
  exists rest, s = m ++ rest /\ delimited rest /\ (8 <= length m)%nat.
Proof.
  unfold match_url. destruct (startswith (lit "http") s) eqn:Hs; [|done].
  apply startswith_split in Hs.
  change (length (lit "http")) with 4%nat in Hs.
  assert (Hp : match_tail (lit "http") (drop 4 s) = Some m ->
               exists rest, s = m ++ rest /\ delimited rest /\
                            (8 <= length m)%nat).
  { intros (body & rest & -> & Hne & Hr & Hd)%match_tail_split.
    exists rest. split; [|split; [done|]].
    - rewrite Hs at 1. rewrite Hr. by rewrite <- !app_assoc.
    - destruct body; [done|]. rewrite !length_app. simpl. lia. }
  destruct (drop 4 s) as [|c r'] eqn:Er; [done|].
  destruct (N.eqb_spec c 115) as [->|_]; [|done].
  destruct (match_tail (lit "https") r') eqn:E; [|done].
  intros [= <-].
  apply match_tail_split in E as (body & rest & -> & Hne & Hr & Hd).
  exists rest. split; [|split; [done|]].
  - rewrite Hs at 1. rewrite Hr. by rewrite <- !app_assoc.
  - rewrite !length_app. simpl. lia.
Qed.

Lemma findall_from_occurs skip s u :
  u ∈ findall_from skip s ->
  exists pre post, s = pre ++ u ++ post /\ delimited post.
Proof.
  revert skip. induction s as [|c s IH]; intros skip; simpl.
  - by intros ?%elem_of_nil.
  - assert (Hlater : forall k, u ∈ findall_from k s ->
              exists pre post, c :: s = pre ++ u ++ post /\ delimited post).
    { intros k (pre & post & -> & Hd)%IH. by exists (c :: pre), post. }
    destruct skip; [|by eauto].
    destruct (match_url (c :: s)) as [m|] eqn:E; [|by eauto].
    intros [->|Hin]%elem_of_cons; [|by eauto].
    apply match_url_split in E as (rest & Hs & Hd & _).
    by exists [], rest.
Qed.

Lemma findall_from_long skip s u :
  u ∈ findall_from skip s -> (8 <= length u)%nat.
Proof.
  revert skip. induction s as [|c s IH]; intros skip; simpl.
  - by intros ?%elem_of_nil.
  - destruct skip; [|by eauto].
    destruct (match_url (c :: s)) as [m|] eqn:E; [|by eauto].
    intros [->|Hin]%elem_of_cons; [|by eauto].
    by apply match_url_split in E as (rest & _ & _ & Hl).
Qed.

(** The leftmost place where the pattern matches gives the first element
    of [findall]. *)
Lemma findall_leftmost pre s m :
  (forall j, (j < length pre)%nat -> match_url (drop j (pre ++ s)) = None) ->
  match_url s = Some m ->
  exists rest, findall (pre ++ s) = m :: rest.
Proof.
  intros Hbefore Hm. induction pre as [|c pre IH]; simpl.
  - destruct s as [|c s]; [done|]. unfold findall; simpl. rewrite Hm. eauto.
  - unfold findall; simpl.
    pose proof (Hbefore 0%nat) as H0. simpl in H0. rewrite H0 by lia.
    apply IH. intros j Hj. apply (Hbefore (S j)). simpl. lia.
Qed.

End Matches.

Lemma findall_nil_iff content :
  findall content = [] <-> forall j, match_url (drop j content) = None.
Proof.
  unfold findall. induction content as [|c s IH]; simpl.
  - split; [|done]. intros _ j. by rewrite drop_nil.
  - destruct (match_url (c :: s)) as [m|] eqn:E.
    + split; [done|]. intros H. specialize (H 0%nat). simpl in H. congruence.
    + rewrite IH. split.
      * intros H [|j]; [done|]. apply H.
      * intros H j. apply (H (S j)).
Qed.

(** X1. Every address extracted from a readable document is a piece of
    its text, at least eight characters long, and ends where the text ends
    or where a white space, a [)] or a [\]] follows. *)
Theorem extracted_urls_occur_in_document env fp content w :
  EnvOk env ->
  open_read env fp = Returns content ->
  exists urls,
    extract_urls_from_file env fp w = (Ok urls, w) /\
    Forall (fun u =>
      (8 <= length u)%nat /\
      exists pre post, content = pre ++ u ++ post /\ delimited post) urls.
Proof.
  intros Hok H. eexists. split; [by apply extract_returns|].
  rewrite sorted_perm, list_of_set_perm by done.
  apply Forall_forall. intros u Hu. rewrite elem_of_remove_dups in Hu.
  split; [by eapply findall_from_long|by eapply findall_from_occurs].
Qed.

Lemma extracted_urls_occur_in_document_witness :
  exists urls,
    extract_urls_from_file sample_env (lit "README.md") empty_world
    = (Ok urls, empty_world) /\
    Forall (fun u =>
      (8 <= length u)%nat /\
      exists pre post, sample_doc = pre ++ u ++ post /\ delimited post) urls.
Proof.
  apply (extracted_urls_occur_in_document sample_env (lit "README.md")
           sample_doc empty_world); [apply sample_env_ok | reflexivity].
Defined.

(** X2. Extraction of a readable document returns the empty list exactly
    when the pattern matches at no position of its text. *)
Theorem nothing_extracted_iff_no_match env fp content w :
  EnvOk env ->
  open_read env fp = Returns content ->
  extract_urls_from_file env fp w = (Ok [], w)
  <-> forall j, match_url (drop j content) = None.
Proof.
  intros Hok H. rewrite (extract_returns env fp content w H).
  rewrite <- findall_nil_iff. split.
  - intros [= Hnil]. destruct (findall content) as [|u l] eqn:E; [done|].
    exfalso. by apply (urls_nonempty env Hok content); rewrite E.
  - intros Hnil. by rewrite (urls_empty env Hok content Hnil).
Qed.

Lemma nothing_extracted_iff_no_match_witness :
  extract_urls_from_file plain_env (lit "notes.md") empty_world
  = (Ok [], empty_world)
  <-> forall j, match_url (drop j (lit "# Title, no links here (ftp://x)"))
                = None.
Proof.
  apply (nothing_extracted_iff_no_match plain_env (lit "notes.md")
           (lit "# Title, no links here (ftp://x)") empty_world);
    [apply plain_env_ok | reflexivity].
Defined.

(** X3. If the pattern matches at some position of a readable document
    and at no position before it, the text matched there is among the
    addresses extracted. *)
Theorem leftmost_match_is_extracted env fp pre s m w :
  EnvOk env ->
  open_read env fp = Returns (pre ++ s) ->
  (forall j, (j < length pre)%nat -> match_url (drop j (pre ++ s)) = None) ->
  match_url s = Some m ->
  exists urls, extract_urls_from_file env fp w = (Ok urls, w) /\ m ∈ urls.
Proof.
  intros Hok H Hbefore Hm. eexists. split; [by apply extract_returns|].
  rewrite sorted_perm, list_of_set_perm by done.
  apply elem_of_remove_dups.
  destruct (findall_leftmost pre s m Hbefore Hm) as [rest ->]. by left.
Qed.

Lemma leftmost_match_is_extracted_witness :
  exists urls,
    extract_urls_from_file sample_env (lit "README.md") empty_world
    = (Ok urls, empty_world) /\
    lit "https://good.example" ∈ urls.
Proof.
  apply (leftmost_match_is_extracted sample_env (lit "README.md")
           (lit "[a](")
           (lit "https://good.example) [b](http://missing.example) [c](https://slow.example) (https://good.example)")
           (lit "https://good.example") empty_world).
  - apply sample_env_ok.
  - reflexivity.
  - intros j Hj. do 4 (destruct j as [|j]; [reflexivity|]). simpl in Hj. lia.
  - reflexivity.
Defined.

(** ** More on the prober and the futures *)

Section Tasks.
Variable env : Env.

(** What the task computes does not depend on what was printed or sent
    before, and its tuple carries the address it was given. *)
Lemma check_is_task_result url w :
  check_url_status env url 10 w = (task_result env url, sent url w) /\
  ((exists code text, task_result env url = Ok (url, code, text)) \/
   (exists cls msg, task_result env url = Raise (PyExc cls msg))).
Proof.
  unfold task_result.
  destruct (requests_head env url 10) as [resp|cls msg] eqn:H.
  - rewrite !(check_response env url 10 _ resp H). eauto.
  - destruct (issubclass cls requests_RequestException) eqn:Hr.
    + destruct (issubclass cls requests_Timeout) eqn:Ht.
      * rewrite !(check_timeout env url 10 _ cls msg H Ht). eauto.
      * rewrite !(check_request_exception env url 10 _ cls msg H Ht Hr). eauto.
    + rewrite !(check_other_exception env url 10 _ cls msg H Hr). eauto.
Qed.

Lemma submit_all_futures_for executor urls w :
  submit_all env executor urls w
  = (Ok (futures_for env urls),
     mkWorld (stdout w) (requests_sent w ++ urls)).
Proof.
  revert w. induction urls as [|url urls IH]; intros w.
  - unfold submit_all, futures_for; simpl. unfold ret. rewrite app_nil_r.
    by destruct w.
  - assert (Hsub : submit env executor url w
                   = (Ok (mkFuture url (task_result env url)), sent url w)).
    { unfold submit. by rewrite (proj1 (check_is_task_result url w)). }
    unfold submit_all in *. cbn [mapM].
    erewrite bind_ok; [|erewrite bind_ok; [|exact Hsub]; reflexivity].
    erewrite bind_ok; [|apply IH].
    unfold ret, sent, futures_for. cbn [stdout requests_sent].
    by rewrite <- app_assoc.
Qed.

Lemma futures_for_member urls f :
  f ∈ (futures_for env urls).*1 ->
  exists url, url ∈ urls /\ f = mkFuture url (task_result env url).
Proof.
  unfold futures_for. rewrite <- list_fmap_compose.
  intros (url & -> & Hu)%list_elem_of_fmap. eauto.
Qed.

(** Looking a future up gives back the address it was submitted for. *)
Lemma getitem_futures_for urls f w :
  f ∈ (futures_for env urls).*1 ->
  getitem (futures_for env urls) f w = (Ok (fut_url f), w).
Proof.
  intros Hin. unfold getitem.
  destruct (find _ (futures_for env urls)) as [kv|] eqn:E.
  - apply find_some in E as [Hkv Heq]. apply bool_decide_eq_true in Heq.
    apply list_elem_of_In in Hkv. unfold futures_for in Hkv.
    apply list_elem_of_fmap in Hkv as (url & -> & _).
    simpl in *. by subst f.
  - destruct (getitem_member (futures_for env urls) f w Hin) as [url Hg].
    unfold getitem in Hg. by rewrite E in Hg.
Qed.

Lemma print_result_line url code text w :
  print_result url code text w
  = (Ok tt,
     printed [((if between 200 code 300 then Colors.GREEN
                else if between 400 code 500 || (code =? 408)
                then Colors.YELLOW else Colors.RED)
               ++ (lit "[" ++ str_of_int code ++ lit " " ++ text ++ lit "]")
               ++ Colors.RESET) ++ lit " " ++ url] w).
Proof.
  unfold print_result, print, printed.
  destruct (between 200 code 300); [reflexivity|].
  destruct (between 400 code 500 || (code =? 408)); reflexivity.
Qed.

Lemma consume_tuple d url0 url code text s w :
  consume d (mkFuture url0 (Ok (url, code, text))) s w
  = (Ok (increment (bucket_of_code code) s),
     (print_result url code text w).2).
Proof.
  unfold consume, try_except, bind, result, bucket_of_code.
  cbn [fut_result]. rewrite print_result_line. cbn [snd].
  destruct (between 200 code 300); [reflexivity|].
  destruct (0 <? code); reflexivity.
Qed.

Lemma consume_names_address urls f s w :
  f ∈ (futures_for env urls).*1 ->
  exists b line,
    consume (futures_for env urls) f s w
    = (Ok (increment b s), printed [line] w) /\
    occurs_in (fut_url f) line.
Proof.
  intros Hin.
  destruct (futures_for_member urls f Hin) as (url & Hu & Hf).
  destruct (proj2 (check_is_task_result url empty_world))
    as [(code & text & Hr)|(cls & msg & Hr)]; rewrite Hr in Hf.
  - subst f. exists (bucket_of_code code). eexists. split.
    + rewrite consume_tuple, print_result_line. reflexivity.
    + cbn [fut_url]. eexists _, []. rewrite app_nil_r.
      apply (app_assoc _ (lit " ") url).
  - exists Error. eexists. split.
    + pose proof (getitem_futures_for urls f w Hin) as Hg.
      subst f. unfold consume, try_except, bind, result.
      cbn [fut_result dispatch isinstance fut_url] in *.
      rewrite all_are_Exception, Hg. reflexivity.
    + subst f. cbn [fut_url]. unfold Msg.unexpected.
      exists (Colors.RED ++ lit "[ERRO] Exce" ++ [231%N; 227%N]
                ++ lit "o inesperada ao verificar "),
             (lit ": " ++ str_exc (PyExc cls msg) ++ Colors.RESET).
      by rewrite <- !app_assoc.
Qed.

Lemma for_each_lines urls l s w :
  (forall f, f ∈ l -> f ∈ (futures_for env urls).*1) ->
  exists s' lines,
    for_each l (consume (futures_for env urls)) s w
    = (Ok s', printed lines w) /\
    total s' = total s + Z.of_nat (length l) /\
    Forall2 (fun f line => occurs_in (fut_url f) line) l lines.
Proof.
  revert s w. induction l as [|f l IH]; intros s w Hl; simpl.
  - exists s, []. unfold ret, printed. rewrite app_nil_r.
    destruct w; simpl. split; [done|]. split; [lia|constructor].
  - destruct (consume_names_address urls f s w) as (b & line & Hc & Ho).
    { apply Hl. by left. }
    destruct (IH (increment b s) (printed [line] w))
      as (s' & lines & Hf & Ht & Hall).
    { intros g Hg. apply Hl. by right. }
    exists s', (line :: lines). unfold bind. rewrite Hc, Hf.
    unfold printed; simpl. rewrite <- app_assoc. split; [done|].
    rewrite Ht, total_increment. split; [lia|]. by constructor.
Qed.

End Tasks.

(** X5. When the request gets a response, the tuple returned carries the
    response's status code unchanged, whatever it is; its text is the
    reason phrase of the server for a code in [[200, 300)] and the fixed
    words [Client/Server Error] for every other code. *)
Theorem response_code_kept_reason_only_for_2xx env url timeout w resp :
  requests_head env url timeout = Returns resp ->
  exists text,
    (check_url_status env url timeout w).1
    = Ok (url, status_code resp, text) /\
    (200 <= status_code resp < 300 -> text = reason resp) /\
    (~ (200 <= status_code resp < 300) -> text = lit "Client/Server Error").
Proof.
  intros H. rewrite (check_response env url timeout w resp H).
  eexists. split; [reflexivity|]. unfold between.
  destruct (Z.leb_spec 200 (status_code resp)),
    (Z.ltb_spec (status_code resp) 300); simpl; split; intros; try done; lia.
Qed.

Lemma response_code_kept_reason_only_for_2xx_witness :
  exists text,
    (check_url_status sample_env (lit "http://missing.example") 10
       empty_world).1
    = Ok (lit "http://missing.example", 404, text) /\
    (200 <= 404 < 300 -> text = lit "Not Found") /\
    (~ (200 <= 404 < 300) -> text = lit "Client/Server Error").
Proof.
  apply (response_code_kept_reason_only_for_2xx sample_env
           (lit "http://missing.example") 10 empty_world
           (mkResponse 404 (lit "Not Found"))).
  reflexivity.
Defined.

(** X6. The colour of a result line and the counter the same tuple
    adds to come from two separate tests on the code. Each tuple consumed
    prints exactly one line, which ends with the address, and adds one to
    exactly one counter of [summary], leaving the two others as they were.
    The line is green exactly when the counter is [good]; a yellow line
    always adds to [bad]; a tuple that adds to [error] is always printed
    red. A red line adds to [bad] exactly for the codes from 1 to 199, from
    300 to 399 and from 500 up. *)
Theorem colour_agrees_with_bucket d url0 url code text s w :
  exists colour s',
    consume d (mkFuture url0 (Ok (url, code, text))) s w
    = (Ok s',
       printed [(colour
                 ++ (lit "[" ++ str_of_int code ++ lit " " ++ text ++ lit "]")
                 ++ Colors.RESET) ++ lit " " ++ url] w) /\
    (colour = Colors.GREEN \/ colour = Colors.YELLOW \/ colour = Colors.RED) /\
    (good s' = good s + 1 /\ bad s' = bad s /\ error s' = error s \/
     good s' = good s /\ bad s' = bad s + 1 /\ error s' = error s \/
     good s' = good s /\ bad s' = bad s /\ error s' = error s + 1) /\
    (colour = Colors.GREEN <-> good s' = good s + 1) /\
    (colour = Colors.YELLOW -> bad s' = bad s + 1) /\
    (error s' = error s + 1 -> colour = Colors.RED) /\
    (colour = Colors.RED /\ bad s' = bad s + 1 <->
     0 < code < 200 \/ 300 <= code < 400 \/ 500 <= code).
Proof.
  eexists _, (increment (bucket_of_code code) s).
  rewrite consume_tuple, print_result_line. split; [reflexivity|].
  pose proof (increment_counted (bucket_of_code code) s) as Hs.
  revert Hs. generalize (increment (bucket_of_code code) s) as s'.
  intros s'. unfold bucket_of_code, between.
  destruct (Z.leb_spec 200 code), (Z.ltb_spec code 300),
    (Z.leb_spec 400 code), (Z.ltb_spec code 500), (Z.eqb_spec code 408),
    (Z.ltb_spec 0 code); cbn [andb orb counted_in];
    intros (Hg & Hb & He);
    repeat split; try (intros; discriminate); try lia; try tauto;
    try (intros [? ?]; discriminate); try (intros [? ?]; lia);
    try (intros; exfalso; lia).
Qed.

(** X7. When the request for one of the submitted addresses raises an
    exception that [check_url_status] does not catch, the future of that
    address is a key of [future_to_url], and the loop, on consuming it,
    looks the address up, prints the [ERRO] line with that address and the
    message of the exception, and adds one to the counter [error], leaving
    [good] and [bad] as they were. *)
Theorem uncaught_task_exception_reported env executor urls url cls msg w0 s w :
  url ∈ urls ->
  requests_head env url 10 = Fails cls msg ->
  issubclass cls requests_RequestException = false ->
  exists future_to_url w1 s',
    submit_all env executor urls w0 = (Ok future_to_url, w1) /\
    mkFuture url (Raise (PyExc cls msg)) ∈ future_to_url.*1 /\
    getitem future_to_url (mkFuture url (Raise (PyExc cls msg))) w
    = (Ok url, w) /\
    consume future_to_url (mkFuture url (Raise (PyExc cls msg))) s w
    = (Ok s', printed [Msg.unexpected url (PyExc cls msg)] w) /\
    good s' = good s /\ bad s' = bad s /\ error s' = error s + 1.
Proof.
  intros Hu H Hr. eexists _, _, (increment Error s).
  split; [apply submit_all_futures_for|].
  assert (Ht : task_result env url = Raise (PyExc cls msg)).
  { unfold task_result.
    by rewrite (check_other_exception env url 10 _ cls msg H Hr). }
  assert (Hin : mkFuture url (Raise (PyExc cls msg))
                ∈ (futures_for env urls).*1).
  { unfold futures_for. rewrite <- list_fmap_compose.
    apply list_elem_of_fmap. exists url. split; [|done].
    simpl. by rewrite Ht. }
  pose proof (getitem_futures_for env urls _ w Hin) as Hg.
  cbn [fut_url] in Hg.
  split; [done|]. split; [done|]. split.
  - unfold consume, try_except, bind, result.
    cbn [fut_result dispatch isinstance].
    rewrite all_are_Exception, Hg. reflexivity.
  - apply (increment_counted Error s).
Qed.

Lemma uncaught_task_exception_reported_witness :
  exists future_to_url w1 s',
    submit_all leaky_env 10 [lit "http://a..b"] empty_world
    = (Ok future_to_url, w1) /\
    mkFuture (lit "http://a..b")
      (Raise (PyExc urllib3_LocationParseError
                (lit "Failed to parse: 'a..b', label empty or too long")))
    ∈ future_to_url.*1 /\
    getitem future_to_url
      (mkFuture (lit "http://a..b")
         (Raise (PyExc urllib3_LocationParseError
                   (lit "Failed to parse: 'a..b', label empty or too long"))))
      empty_world
    = (Ok (lit "http://a..b"), empty_world) /\
    consume future_to_url
      (mkFuture (lit "http://a..b")
         (Raise (PyExc urllib3_LocationParseError
                   (lit "Failed to parse: 'a..b', label empty or too long"))))
      (mkSummary 3 1 0) empty_world
    = (Ok s',
       printed [Msg.unexpected (lit "http://a..b")
                  (PyExc urllib3_LocationParseError
                     (lit "Failed to parse: 'a..b', label empty or too long"))]
               empty_world) /\
    good s' = good (mkSummary 3 1 0) /\ bad s' = bad (mkSummary 3 1 0) /\
    error s' = error (mkSummary 3 1 0) + 1.
Proof.
  apply (uncaught_task_exception_reported leaky_env 10 [lit "http://a..b"]
           (lit "http://a..b") urllib3_LocationParseError
           (lit "Failed to parse: 'a..b', label empty or too long")
           empty_world (mkSummary 3 1 0) empty_world).
  - apply list_elem_of_here.
  - reflexivity.
  - reflexivity.
Defined.

(** ** More on the whole program *)

Section Runs.
Variable env : Env.
Hypothesis env_ok : EnvOk env.

Lemma main_run_lines args content w :
  open_read env (filepath args) = Returns content ->
  findall content <> [] ->
  0 < workers args ->
  let urls := sorted (list_of_set env (findall content)) in
  exists s lines order,
    main env args w
    = (Ok s,
       mkWorld (stdout w
                ++ [Msg.starting (filepath args); Msg.found (length urls)]
                ++ lines
                ++ [Msg.summary_title; Msg.summary_total (length urls);
                    Msg.summary_good (good s); Msg.summary_bad (bad s);
                    Msg.summary_error (error s); Msg.summary_rule])
               (requests_sent w ++ urls)) /\
    total s = Z.of_nat (length urls) /\
    order ≡ₚ urls /\
    Forall2 occurs_in order lines.
Proof.
  intros H Hne Hw urls.
  set (d := futures_for env urls).
  set (w1 := printed [Msg.starting (filepath args); Msg.found (length urls)] w).
  set (w2 := mkWorld (stdout w1) (requests_sent w1 ++ urls)).
  assert (Hkeys : fut_url <$> d.*1 = urls).
  { unfold d, futures_for. rewrite <- !list_fmap_compose.
    apply list_fmap_id. }
  destruct (for_each_lines env urls (as_completed env (d.*1))
              (mkSummary 0 0 0) w2) as (s & lines & Hf & Ht & Hall).
  { intros f Hf. by rewrite (as_completed_perm env env_ok) in Hf. }
  exists s, lines, (fut_url <$> as_completed env (d.*1)).
  split; [|split; [|split]].
  - unfold main.
    erewrite bind_ok; [|apply print_prints].
    erewrite bind_ok; [|by apply extract_returns].
    rewrite bool_decide_eq_false_2 by by apply urls_nonempty.
    erewrite bind_ok; [|reflexivity].
    erewrite bind_ok; [|apply print_prints].
    erewrite bind_ok.
    2:{ unfold ThreadPoolExecutor.
        destruct (Z.leb_spec (workers args) 0); [lia|reflexivity]. }
    erewrite bind_ok; [|apply submit_all_futures_for].
    fold urls. fold d.
    replace (mkWorld _ _) with w2.
    2:{ unfold w2, w1, printed; simpl. by rewrite <- app_assoc. }
    erewrite bind_ok; [|exact Hf].
    repeat (erewrite bind_ok; [|apply print_prints]).
    unfold ret, printed, w2, w1; simpl. fold urls.
    by rewrite <- !app_assoc.
  - rewrite Ht. unfold total; simpl.
    rewrite (Permutation_length (as_completed_perm env env_ok _)).
    rewrite <- (length_fmap fut_url (d.*1)), Hkeys. lia.
  - rewrite (as_completed_perm env env_ok). by rewrite Hkeys.
  - by apply Forall2_fmap_l.
Qed.

End Runs.

(** X8. With a readable document and a positive number of workers, the
    run calls [requests.head] exactly once with each distinct address the
    pattern finds, and with nothing else: an address written several times
    in the document is probed by one call. (What each call then puts on the
    wire is the library's business: nothing for an address it refuses
    before connecting, several requests when it follows redirects.) *)
Theorem one_head_call_per_distinct_address env args content w :
  EnvOk env ->
  open_read env (filepath args) = Returns content ->
  0 < workers args ->
  let urls := sorted (list_of_set env (findall content)) in
  requests_sent (main env args w).2 = requests_sent w ++ urls /\
  NoDup urls /\
  (forall u, u ∈ urls <-> u ∈ findall content).
Proof.
  intros Hok H Hw urls. split; [|split].
  - destruct (decide (findall content = [])) as [Hnil|Hne].
    + rewrite (main_no_urls env Hok args content w H Hnil).
      unfold urls. rewrite (urls_empty env Hok content Hnil).
      by rewrite app_nil_r.
    + destruct (main_runs env Hok args content w H Hne Hw)
        as (s & lines & -> & _). done.
  - unfold urls. rewrite sorted_perm. by apply list_of_set_NoDup.
  - intros u. unfold urls. rewrite sorted_perm, list_of_set_perm by done.
    apply elem_of_remove_dups.
Qed.

Lemma one_head_call_per_distinct_address_witness :
  let args := mkArgs (lit "README.md") 10 in
  let urls := sorted (list_of_set sample_env (findall sample_doc)) in
  requests_sent (main sample_env args empty_world).2
  = requests_sent empty_world ++ urls /\
  NoDup urls /\
  (forall u, u ∈ urls <-> u ∈ findall sample_doc).
Proof.
  intros args.
  apply (one_head_call_per_distinct_address sample_env args sample_doc
           empty_world); [apply sample_env_ok | reflexivity | reflexivity].
Defined.

(** X9. The exit status of the program depends on the document and on
    the number of workers only, never on what the network answers: it is 1
    when the document cannot be read, 0 when it holds no address, 1 when it
    holds one and the number of workers is zero or less, and 0 in every
    other case, also when every link is broken. *)
Theorem exit_status_ignores_link_results env args w :
  EnvOk env ->
  exit_status (main env args w).1
  = match open_read env (filepath args) with
    | Fails _ _ => 1
    | Returns content =>
        if bool_decide (findall content = []) then 0
        else if workers args <=? 0 then 1
        else 0
    end.
Proof.
  intros Hok. destruct (open_read env (filepath args)) as [content|cls msg] eqn:H.
  - case_bool_decide as Hf.
    + by rewrite (main_no_urls env Hok args content w H Hf).
    + destruct (Z.leb_spec (workers args) 0) as [Hw|Hw].
      * by rewrite (main_bad_workers env Hok args content w H Hf Hw).
      * destruct (main_runs env Hok args content w H Hf Hw)
          as (s & lines & -> & _). done.
  - by rewrite (main_unreadable env args cls msg w H).
Qed.

Lemma refused_env_ok : EnvOk refused_env.
Proof. by split. Qed.

Lemma exit_status_ignores_link_results_witness :
  exit_status
    (main refused_env (mkArgs (lit "README.md") 10) empty_world).1
  = match open_read refused_env (lit "README.md") with
    | Fails _ _ => 1
    | Returns content =>
        if bool_decide (findall content = []) then 0
        else if 10 <=? 0 then 1
        else 0
    end.
Proof.
  apply (exit_status_ignores_link_results refused_env
           (mkArgs (lit "README.md") 10) empty_world).
  apply refused_env_ok.
Defined.

(** X10. A run that checks links ends normally and prints, in this
    order: the opening line, the number of distinct addresses, one line for
    each address (the lines pair off with the addresses taken in some
    order, each line holding its address), and the six lines of the
    summary, whose total is the number of addresses and whose three counts
    add up to it. *)
Theorem run_prints_one_line_per_address env args content w :
  EnvOk env ->
  open_read env (filepath args) = Returns content ->
  findall content <> [] ->
  0 < workers args ->
  let urls := sorted (list_of_set env (findall content)) in
  exists s lines order,
    (main env args w).1 = Ok s /\
    stdout (main env args w).2
    = stdout w
      ++ [Msg.starting (filepath args); Msg.found (length urls)]
      ++ lines
      ++ [Msg.summary_title; Msg.summary_total (length urls);
          Msg.summary_good (good s); Msg.summary_bad (bad s);
          Msg.summary_error (error s); Msg.summary_rule] /\
    good s + bad s + error s = Z.of_nat (length urls) /\
    order ≡ₚ urls /\
    Forall2 occurs_in order lines.
Proof.
  intros Hok H Hne Hw urls.
  destruct (main_run_lines env Hok args content w H Hne Hw)
    as (s & lines & order & Hm & Ht & Hp & Hall).
  exists s, lines, order. rewrite Hm. done.
Qed.

Lemma run_prints_one_line_per_address_witness :
  let args := mkArgs (lit "README.md") 10 in
  let urls := sorted (list_of_set sample_env (findall sample_doc)) in
  exists s lines order,
    (main sample_env args empty_world).1 = Ok s /\
    stdout (main sample_env args empty_world).2
    = stdout empty_world
      ++ [Msg.starting (filepath args); Msg.found (length urls)]
      ++ lines
      ++ [Msg.summary_title; Msg.summary_total (length urls);
          Msg.summary_good (good s); Msg.summary_bad (bad s);
          Msg.summary_error (error s); Msg.summary_rule] /\
    good s + bad s + error s = Z.of_nat (length urls) /\
    order ≡ₚ urls /\
    Forall2 occurs_in order lines.
Proof.
  intros args.
  apply (run_prints_one_line_per_address sample_env args sample_doc
           empty_world);
    [apply sample_env_ok | reflexivity | discriminate | reflexivity].
Defined.

(** A code of 500 is printed red and counted as bad. *)
Example red_line_counted_bad :
  consume [] (mkFuture (lit "http://x.y")
                (Ok (lit "http://x.y", 500, lit "Client/Server Error")))
          (mkSummary 0 0 0) empty_world
  = (Ok (mkSummary 0 1 0),
     printed [(Colors.RED ++ lit "[500 Client/Server Error]" ++ Colors.RESET)
              ++ lit " http://x.y"] empty_world).
Proof. vm_compute. reflexivity. Qed.
